(** * Proximity alert pipeline of the road-hazard dashboard

    A shallow embedding of the TypeScript sources
      - [src/pages/Dashboard.tsx]            (geo-filter, alert queue, live channel),
      - [src/components/HazardList.tsx]      (distance-sorted listing),
      - [src/components/HazardMap.tsx]       (map annotation),
      - [src/components/AlertNotification.tsx] (auto-expiry timers),
    followed by the properties of the specification, each proved or refuted
    on the embedding. *)

From Stdlib Require Import ZArith List String Ascii Bool Lia Lra.
From Stdlib Require Import Reals Floats Uint63 DecimalString.
From Stdlib Require DecimalPos DecimalZ.
From Stdlib Require Import Sorted Permutation.
From stdpp Require Import base option list gmap strings.

Local Open Scope Z_scope.

(* ===================================================================== *)
(** * The JavaScript fragment the components rely on                      *)
(* ===================================================================== *)

Module JS.

(** ** Numbers

    The sources compute with the JavaScript [number] type through the
    operators [+ - * /], the comparisons [<=] and [<] and the [Math]
    object.  The embedding is written once against this interface; it is
    instantiated below by IEEE binary64 (what an engine runs) and by the
    real numbers (what the formulas of the specification denote). *)

Class Number (num : Type) : Type := {
  lit        : Z -> num;                 (* an integer literal of the source *)
  Math_PI    : num;
  add        : num -> num -> num;
  sub        : num -> num -> num;
  mul        : num -> num -> num;
  div        : num -> num -> num;
  Math_sin   : num -> num;
  Math_cos   : num -> num;
  Math_sqrt  : num -> num;
  Math_atan2 : num -> num -> num;
  le         : num -> num -> bool;       (* [x <= y] *)
  lt         : num -> num -> bool        (* [x < y]  *)
}.

Declare Scope js_scope.
Delimit Scope js_scope with js.
Infix "+" := add : js_scope.
Infix "-" := sub : js_scope.
Infix "*" := mul : js_scope.
Infix "/" := div : js_scope.
Infix "<=?" := le : js_scope.
Infix "<?" := lt : js_scope.

(** *** IEEE binary64.  ECMAScript leaves the precision of [Math.sin],
    [Math.cos] and [Math.atan2] to the engine, so they are parameters of the
    instance; the arithmetic, the square root and the comparisons are the
    kernel's binary64 operations. *)

Definition float_lit (z : Z) : float :=
  if z <? 0 then PrimFloat.opp (PrimFloat.of_uint63 (Uint63.of_Z (- z)))
  else PrimFloat.of_uint63 (Uint63.of_Z z).

Definition binary64 (sin cos : float -> float) (atan2 : float -> float -> float)
  : Number float :=
  {| lit := float_lit;
     Math_PI := 0x1.921fb54442d18p+1%float;   (* 3.141592653589793 *)
     add := PrimFloat.add;
     sub := PrimFloat.sub;
     mul := PrimFloat.mul;
     div := PrimFloat.div;
     Math_sin := sin;
     Math_cos := cos;
     Math_sqrt := PrimFloat.sqrt;
     Math_atan2 := atan2;
     le := PrimFloat.leb;
     lt := PrimFloat.ltb |}.

(** *** Real numbers: arithmetic without rounding.  This is not the
    number type of the program, which computes in binary64; it is the
    reading under which the formulas of the specification are stated, and
    facts proved at this instance are facts about the exact formula. *)

Definition Rleb (x y : R) : bool := if Rle_dec x y then true else false.
Definition Rltb (x y : R) : bool := if Rlt_dec x y then true else false.

(** The two-argument arctangent, by quadrant, as [Math.atan2(y, x)]. *)
Definition Ratan2 (y x : R) : R :=
  if Rlt_dec 0 x then atan (y / x)
  else if Rlt_dec x 0 then
    (if Rle_dec 0 y then atan (y / x) + PI else atan (y / x) - PI)%R
  else if Rlt_dec 0 y then (PI / 2)%R
  else if Rlt_dec y 0 then (- (PI / 2))%R
  else 0%R.

#[export] Instance real : Number R :=
  {| lit := IZR;
     Math_PI := PI;
     add := Rplus;
     sub := Rminus;
     mul := Rmult;
     div := Rdiv;
     Math_sin := Rtrigo_def.sin;
     Math_cos := Rtrigo_def.cos;
     Math_sqrt := R_sqrt.sqrt;
     Math_atan2 := Ratan2;
     le := Rleb;
     lt := Rltb |}.

(** ** [Array.prototype.sort(comparefn)]

    The order of the result is fixed by the language for a consistent
    [comparefn]: sorted, and stable.  It is taken here as the stable
    insertion sort: an element stays in front of a later one unless
    [comparefn] returns a number above zero for the pair.  Where
    [comparefn] is not consistent (it returns NaN for a pair, say) the
    language leaves the order to the engine, and this function is one
    possible outcome only; what holds of every outcome is that the result
    is a permutation. *)

Section Sort.
Context {num : Type} {N : Number num} {A : Type}.
Variable comparefn : A -> A -> num.

Fixpoint sort_insert (x : A) (l : list A) : list A :=
  match l with
  | [] => [x]
  | y :: l' =>
      if (lit 0 <? comparefn x y)%js then y :: sort_insert x l'
      else x :: y :: l'
  end.

Definition Array_sort (l : list A) : list A :=
  fold_right sort_insert [] l.
End Sort.

(** ** Arrays are objects: a store of arrays by reference. *)

Section Arrays.
Context {A : Type}.

(** [[...r]]: a new array with the elements of [r]. *)
Definition spread (r : nat) (h : gmap nat (list A)) : nat * gmap nat (list A) :=
  let r' := fresh (dom h) in
  (r', <[r' := default [] (h !! r)]> h).

(** [r.sort(comparefn)] sorts the array [r] in place and returns [r]. *)
Definition sort_in_place {num : Type} {N : Number num}
    (comparefn : A -> A -> num) (r : nat) (h : gmap nat (list A))
  : nat * gmap nat (list A) :=
  (r, alter (Array_sort comparefn) r h).
End Arrays.

(** ** [Date.now().toString()]: the decimal numeral of the clock reading
    (milliseconds since the epoch). *)

Definition Date_now_toString (now : Z) : string :=
  NilZero.string_of_int (Z.to_int now).

(** ** Strings

    A string is read as a sequence of code units below 256 (Latin-1), on
    which [toLowerCase] lowers A-Z and the accented capitals U+00C0-U+00DE,
    the multiplication sign U+00D7 apart. *)

Definition lower_code_unit (c : ascii) : ascii :=
  let n := nat_of_ascii c in
  if ((65 <=? n) && (n <=? 90)
      || (192 <=? n) && (n <=? 222) && negb (n =? 215))%nat
  then ascii_of_nat (n + 32)
  else c.

Fixpoint toLowerCase (s : string) : string :=
  match s with
  | EmptyString => EmptyString
  | String c s' => String (lower_code_unit c) (toLowerCase s')
  end.

(** [s.includes(sub)] *)
Fixpoint includes (s sub : string) : bool :=
  String.prefix sub s
  || match s with
     | EmptyString => false
     | String _ s' => includes s' sub
     end.

(** ** Property lookup on an object literal with string values

    [obj[key]] finds an own property, or else a member of
    [Object.prototype], or else is [undefined]. *)

Inductive Value : Type :=
| JString (s : string)
| JInherited (name : string)     (* a member of [Object.prototype] *)
| JUndefined.

Definition Object_prototype : list string :=
  ["constructor"; "__defineGetter__"; "__defineSetter__"; "hasOwnProperty";
   "__lookupGetter__"; "__lookupSetter__"; "isPrototypeOf";
   "propertyIsEnumerable"; "toString"; "valueOf"; "__proto__";
   "toLocaleString"]%string.

Fixpoint own_property (obj : list (string * string)) (key : string)
  : option string :=
  match obj with
  | [] => None
  | (k, v) :: obj' => if String.eqb k key then Some v else own_property obj' key
  end.

Definition get (obj : list (string * string)) (key : string) : Value :=
  match own_property obj key with
  | Some v => JString v
  | None =>
      if existsb (String.eqb key) Object_prototype then JInherited key
      else JUndefined
  end.

(** [v || fallback]: the empty string and [undefined] are falsy, functions
    and objects are truthy. *)
Definition or_else (v : Value) (fallback : string) : Value :=
  match v with
  | JString s => if String.eqb s EmptyString then JString fallback else JString s
  | JInherited name => JInherited name
  | JUndefined => JString fallback
  end.

(** ** [localStorage]: a map from keys to strings. *)

(** [a && b] on two [getItem] results: both present and non-empty. *)
Definition truthy (v : option string) : bool :=
  match v with
  | Some s => negb (String.eqb s EmptyString)
  | None => false
  end.

End JS.

Import JS.

(* ===================================================================== *)
(** * Data exchanged with the backend                                     *)
(* ===================================================================== *)

Module Api.

Section Types.
Context {num : Type}.

(** [interface Location] of [@/lib/api] (its text follows
    [LocationContext.tsx] among the sources): a position in degrees. *)
Record Location : Type := mkLocation { lat : num; lon : num }.

(** [interface Hazard] of [@/lib/api]. *)
Record Hazard : Type := mkHazard {
  _id : string;
  user_id : string;
  hazard_type : string;
  description : string;
  confidence : num;
  location : Location;
  timestamp : string
}.
End Types.

Arguments Location : clear implicits.
Arguments Hazard : clear implicits.

End Api.

Import Api.

(* ===================================================================== *)
(** * src/pages/Dashboard.tsx                                             *)
(* ===================================================================== *)

Module Dashboard.

Section Component.
Context {num : Type} {N : Number num}.
Local Open Scope js_scope.

Definition calculateDistance (lat1 lon1 lat2 lon2 : num) : num :=
  let R := lit 6371 in
  let dLat := (lat2 - lat1) * Math_PI / lit 180 in
  let dLon := (lon2 - lon1) * Math_PI / lit 180 in
  let a :=
    Math_sin (dLat / lit 2) * Math_sin (dLat / lit 2) +
    Math_cos (lat1 * Math_PI / lit 180) * Math_cos (lat2 * Math_PI / lit 180) *
    Math_sin (dLon / lit 2) * Math_sin (dLon / lit 2) in
  let c := lit 2 * Math_atan2 (Math_sqrt a) (Math_sqrt (lit 1 - a)) in
  R * c.

(** *** What the component holds and touches *)

(** The payload of a [hazard_alert] event.  The handler receives it
    untyped; [location = None] is a payload without the [location]
    field, where [data.location] evaluates to [undefined]. *)
Record AlertData : Type := mkAlertData {
  hazard_type : string;
  description : string;
  confidence : num;
  location : option (Location num);
  timestamp : string;
  user_id : string
}.

(** [{ ...data, id: Date.now().toString() }] *)
Record AlertRecord : Type := mkAlertRecord {
  data : AlertData;
  id : string
}.

(** The [useState] cells of the component, and what it has asked of its
    collaborators: the number of [hazardAPI.getHazards()] requests sent
    and the toasts shown. *)
Record World : Type := mkWorld {
  hazards : list (Hazard num);
  loading : bool;
  alerts : list AlertRecord;
  getHazards_requests : nat;
  toasts : list string
}.

Inductive Exn : Type :=
| TypeError (message : string).

(** A callback runs on the world and either returns or throws. *)
Definition M (A : Type) : Type := World -> (Exn + A) * World.

Definition ret {A} (a : A) : M A := fun w => (inr a, w).
Definition throw {A} (e : Exn) : M A := fun w => (inl e, w).
Definition bind {A B} (c : M A) (k : A -> M B) : M B :=
  fun w => match c w with
           | (inl e, w') => (inl e, w')
           | (inr a, w') => k a w'
           end.

Notation "'let!' x ':=' c 'in' k" := (bind c (fun x => k))
  (at level 10, x name, c at level 100, k at level 200).
Notation "c ;; k" := (bind c (fun _ => k))
  (at level 100, k at level 200, right associativity).

Definition setHazards (hs : list (Hazard num)) : M unit :=
  fun w => (inr tt, mkWorld hs (loading w) (alerts w)
                            (getHazards_requests w) (toasts w)).
Definition setLoading (b : bool) : M unit :=
  fun w => (inr tt, mkWorld (hazards w) b (alerts w)
                            (getHazards_requests w) (toasts w)).
Definition setAlerts (f : list AlertRecord -> list AlertRecord) : M unit :=
  fun w => (inr tt, mkWorld (hazards w) (loading w) (f (alerts w))
                            (getHazards_requests w) (toasts w)).
Definition toast (description : string) : M unit :=
  fun w => (inr tt, mkWorld (hazards w) (loading w) (alerts w)
                            (getHazards_requests w) (toasts w ++ [description])).
Definition hazardAPI_getHazards : M unit :=
  fun w => (inr tt, mkWorld (hazards w) (loading w) (alerts w)
                            (S (getHazards_requests w)) (toasts w)).

(** *** [fetchHazards]

    An [async] function: the call runs up to the [await], which sends the
    request; the rest runs when the request settles, with the response
    ([Some] list) or the rejection ([None]). *)

Definition fetchHazards : M unit := hazardAPI_getHazards.

Definition fetchHazards_settled (response : option (list (Hazard num))) : M unit :=
  match response with
  | Some response_data => setHazards response_data
  | None => toast "Could not fetch hazards"
  end ;;
  setLoading false.

(** *** The [hazard_alert] handler

    [currentLocation] is the value the handler closed over; [now] is what
    [Date.now()] reads when the handler runs. *)

(** [data.location.lat] and [data.location.lon]: reading a property of
    [undefined] throws. *)
Definition data_location_lat (d : AlertData) : M num :=
  match location d with
  | Some l => ret (lat l)
  | None => throw (TypeError "Cannot read properties of undefined (reading 'lat')")
  end.
Definition data_location_lon (d : AlertData) : M num :=
  match location d with
  | Some l => ret (lon l)
  | None => throw (TypeError "Cannot read properties of undefined (reading 'lon')")
  end.

Definition on_hazard_alert (currentLocation : option (Location num))
    (now : Z) (d : AlertData) : M unit :=
  match currentLocation with
  | Some cl =>
      let! lat2 := data_location_lat d in
      let! lon2 := data_location_lon d in
      let distance := calculateDistance (lat cl) (lon cl) lat2 lon2 in
      if distance <=? lit 3 then
        let alertWithId := mkAlertRecord d (Date_now_toString now) in
        setAlerts (fun prev => prev ++ [alertWithId]) ;;
        fetchHazards
      else ret tt
  | None => ret tt
  end.

(** *** [dismissAlert] *)

Definition dismissAlert (id0 : string) : M unit :=
  setAlerts (fun prev =>
    List.filter (fun alert => negb (String.eqb (id alert) id0)) prev).

(** The identifiers of the queued records, oldest first. *)
Definition queue_ids (w : World) : list string :=
  List.map id (alerts w).

(** An arrival: the position the handler closed over, the clock reading,
    the payload. *)
Record Arrival : Type := mkArrival {
  arrival_location : option (Location num);
  arrival_time : Z;
  arrival_data : AlertData
}.

(** The handler run on arrivals one after the other; an exception ends
    the handling of its event only. *)
Definition handle_all (evs : list Arrival) (w : World) : World :=
  fold_left
    (fun w0 ev =>
       snd (on_hazard_alert (arrival_location ev) (arrival_time ev)
              (arrival_data ev) w0))
    evs w.

(** The test the handler applies, as a predicate on arrivals. *)
Definition nearby (ev : Arrival) : bool :=
  match arrival_location ev, location (arrival_data ev) with
  | Some cl, Some l =>
      calculateDistance (lat cl) (lon cl) (lat l) (lon l) <=? lit 3
  | _, _ => false
  end.

Definition record_of (ev : Arrival) : AlertRecord :=
  mkAlertRecord (arrival_data ev) (Date_now_toString (arrival_time ev)).

(** *** The live channel: the SocketIO [useEffect]

    React runs the effect after the first render and after every render in
    which [user?.token] or [currentLocation] changed, and it runs the
    cleanup the previous run returned before the next run and at unmount.
    A socket is identified by the order of its creation; [connected] are
    the sockets that deliver events, each with the location its
    [hazard_alert] handler closed over. *)

Inductive SocketOp : Type :=
| io_connect (socket : nat) (token : string)
| socket_disconnect (socket : nat).

Record Channel : Type := mkChannel {
  mounted : bool;
  next_socket : nat;
  connected : list (nat * option (Location num));
  cleanup : option nat;
  trace : list SocketOp
}.

Definition unmounted : Channel := mkChannel false 0 [] None [].

(** [!user?.token]: there is no user, or its token is the empty string. *)
Definition no_token (token : option string) : bool :=
  match token with
  | None => true
  | Some tok => String.eqb tok EmptyString
  end.

(** The effect body; [token] is [user?.token]. *)
Definition socket_effect (token : option string)
    (currentLocation : option (Location num)) (ch : Channel) : Channel :=
  if no_token token then
    mkChannel true (next_socket ch) (connected ch) None (trace ch)
  else
    let socket := next_socket ch in
    mkChannel true (S socket)
              (connected ch ++ [(socket, currentLocation)])
              (Some socket)
              (trace ch ++ [io_connect socket (default EmptyString token)]).

(** The cleanup the effect returned, if any: [socket.disconnect()]. *)
Definition run_cleanup (ch : Channel) : Channel :=
  match cleanup ch with
  | None => ch
  | Some socket =>
      mkChannel (mounted ch) (next_socket ch)
                (List.filter (fun c => negb (Nat.eqb (fst c) socket)) (connected ch))
                None
                (trace ch ++ [socket_disconnect socket])
  end.

Inductive Lifecycle : Type :=
| Mount (token : option string) (currentLocation : option (Location num))
| DepsChanged (token : option string) (currentLocation : option (Location num))
| Unmount.

Definition lifecycle_step (ch : Channel) (ev : Lifecycle) : Channel :=
  match ev with
  | Mount tok loc =>
      if mounted ch then ch else socket_effect tok loc ch
  | DepsChanged tok loc =>
      if mounted ch then socket_effect tok loc (run_cleanup ch) else ch
  | Unmount =>
      if mounted ch then
        let ch' := run_cleanup ch in
        mkChannel false (next_socket ch') (connected ch') None (trace ch')
      else ch
  end.

Definition lifecycle (evs : list Lifecycle) : Channel :=
  fold_left lifecycle_step evs unmounted.

(** An inbound [hazard_alert] is handed to the handler of every connected
    socket. *)
Definition deliver (ch : Channel) (now : Z) (d : AlertData) : list (M unit) :=
  List.map (fun c => on_hazard_alert (snd c) now d) (connected ch).

(** The sockets a trace leaves open, checked as it goes: [None] as soon as
    a socket is connected while another is still open, or one is
    disconnected that is not the open one. *)
Fixpoint replay (open : option nat) (tr : list SocketOp) : option (option nat) :=
  match tr with
  | [] => Some open
  | io_connect socket _ :: tr' =>
      match open with
      | None => replay (Some socket) tr'
      | Some _ => None
      end
  | socket_disconnect socket :: tr' =>
      match open with
      | Some s => if Nat.eqb socket s then replay None tr' else None
      | None => None
      end
  end.

(** What holds of the channel between any two lifecycle events: the trace
    replays to the socket the pending cleanup will disconnect, that socket
    is the one connected, and an unmounted component has no cleanup
    pending. *)
Record channel_ok (ch : Channel) : Prop := {
  ok_trace : replay None (trace ch) = Some (cleanup ch);
  ok_connected :
    List.map fst (connected ch)
      = match cleanup ch with Some s => [s] | None => [] end;
  ok_unmounted : mounted ch = false -> cleanup ch = None
}.

End Component.

Arguments AlertData : clear implicits.
Arguments AlertRecord : clear implicits.
Arguments World : clear implicits.
Arguments Channel : clear implicits.
Arguments Lifecycle : clear implicits.
Arguments Arrival : clear implicits.

End Dashboard.

(* ===================================================================== *)
(** * src/components/HazardList.tsx                                       *)
(* ===================================================================== *)

Module HazardList.

Section Component.
Context {num : Type} {N : Number num}.
Local Open Scope js_scope.

Definition calculateDistance (lat1 lon1 lat2 lon2 : num) : num :=
  let R := lit 6371 in
  let dLat := (lat2 - lat1) * Math_PI / lit 180 in
  let dLon := (lon2 - lon1) * Math_PI / lit 180 in
  let a :=
    Math_sin (dLat / lit 2) * Math_sin (dLat / lit 2) +
    Math_cos (lat1 * Math_PI / lit 180) * Math_cos (lat2 * Math_PI / lit 180) *
    Math_sin (dLon / lit 2) * Math_sin (dLon / lit 2) in
  let c := lit 2 * Math_atan2 (Math_sqrt a) (Math_sqrt (lit 1 - a)) in
  R * c.

(** [new Date(s).getTime()], the time a timestamp string denotes. *)
Variable Date_getTime : string -> num.

(** The comparison function handed to [sort]. *)
Definition compareHazards (currentLocation : option (Location num))
    (a b : Hazard num) : num :=
  match currentLocation with
  | None => Date_getTime (Api.timestamp b) - Date_getTime (Api.timestamp a)
  | Some cl =>
      let distA := calculateDistance (lat cl) (lon cl)
                     (lat (Api.location a)) (lon (Api.location a)) in
      let distB := calculateDistance (lat cl) (lon cl)
                     (lat (Api.location b)) (lon (Api.location b)) in
      distA - distB
  end.

(** [const sortedHazards = [...hazards].sort((a, b) => ...)], where
    [hazards] is the reference the component received as a prop. *)
Definition sortedHazards (currentLocation : option (Location num))
    (hazards : nat) (h : gmap nat (list (Hazard num)))
  : nat * gmap nat (list (Hazard num)) :=
  let '(copy, h1) := spread hazards h in
  sort_in_place (compareHazards currentLocation) copy h1.

(** The number by which the comparison function ranks a hazard: its
    distance from the current position, or its time when no position is
    known. *)
Definition sort_key (currentLocation : option (Location num))
    (a : Hazard num) : num :=
  match currentLocation with
  | Some cl =>
      calculateDistance (lat cl) (lon cl)
        (lat (location a)) (lon (location a))
  | None => Date_getTime (timestamp a)
  end.

(** [a] may stand in front of [b]: it is no farther, or no older. *)
Definition in_order (currentLocation : option (Location num))
    (a b : Hazard num) : Prop :=
  match currentLocation with
  | Some _ => (sort_key currentLocation a <=? sort_key currentLocation b) = true
  | None => (sort_key currentLocation b <=? sort_key currentLocation a) = true
  end.

(** The sign test that [sort] applies to the comparison function agrees
    with the order of the keys of [a] and [b]. *)
Definition comparable (currentLocation : option (Location num))
    (a b : Hazard num) : Prop :=
  if lit 0 <? compareHazards currentLocation a b
  then in_order currentLocation b a
  else in_order currentLocation a b.

(** The distance line of a list entry:
    [currentLocation ? calculateDistance(...) : null], rendered when it is
    not [null]. *)
Definition entry_distance (currentLocation : option (Location num))
    (hazard : Hazard num) : option num :=
  match currentLocation with
  | Some cl =>
      Some (calculateDistance (lat cl) (lon cl)
              (lat (location hazard)) (lon (location hazard)))
  | None => None
  end.

End Component.

Definition variants : list (string * string) :=
  [("accident", "destructive"); ("pothole", "default");
   ("flood", "secondary"); ("roadblock", "destructive");
   ("traffic jam", "outline")]%string.

Definition getHazardVariant (type : string) : Value :=
  or_else (get variants (toLowerCase type)) "default".

End HazardList.

(* ===================================================================== *)
(** * src/components/HazardMap.tsx                                        *)
(* ===================================================================== *)

Module HazardMap.

Section Component.
Context {num : Type} {N : Number num}.
Local Open Scope js_scope.

Definition calculateDistance (lat1 lon1 lat2 lon2 : num) : num :=
  let R := lit 6371 in
  let dLat := (lat2 - lat1) * Math_PI / lit 180 in
  let dLon := (lon2 - lon1) * Math_PI / lit 180 in
  let a :=
    Math_sin (dLat / lit 2) * Math_sin (dLat / lit 2) +
    Math_cos (lat1 * Math_PI / lit 180) * Math_cos (lat2 * Math_PI / lit 180) *
    Math_sin (dLon / lit 2) * Math_sin (dLon / lit 2) in
  let c := lit 2 * Math_atan2 (Math_sqrt a) (Math_sqrt (lit 1 - a)) in
  R * c.

(** The distance of a marker's popup:
    [currentLocation ? calculateDistance(...) : 0]. *)
Definition popup_distance (currentLocation : option (Location num))
    (hazard : Hazard num) : num :=
  match currentLocation with
  | Some cl =>
      calculateDistance (lat cl) (lon cl)
        (lat (location hazard)) (lon (location hazard))
  | None => lit 0
  end.

(** [{distance > 0 && <p>Distance: ...</p>}] *)
Definition popup_shows_distance (currentLocation : option (Location num))
    (hazard : Hazard num) : bool :=
  lit 0 <? popup_distance currentLocation hazard.

End Component.

Definition colors : list (string * string) :=
  [("accident", "#ef4444"); ("pothole", "#f97316"); ("flood", "#3b82f6");
   ("roadblock", "#dc2626"); ("traffic jam", "#eab308")]%string.

(** The [color] that [getHazardIcon] puts into the marker. *)
Definition getHazardIcon_color (hazardType : string) : Value :=
  or_else (get colors (toLowerCase hazardType)) "#f97316".

End HazardMap.

(* ===================================================================== *)
(** * src/components/AlertNotification.tsx                                *)
(* ===================================================================== *)

Module AlertNotification.

(** The functions the component hands to [setTimeout]. *)
Inductive Callback : Type :=
| show_card        (* [() => setIsVisible(true)]     *)
| auto_dismiss     (* [() => { handleDismiss(); }]   *)
| call_onDismiss.  (* [onDismiss]                    *)

Record Timer : Type := mkTimer {
  handle : nat;
  due : Z;
  callback : Callback
}.

(** What an observer of the card sees happen, with the time in ms. *)
Inductive Happened : Type :=
| Clicked            (* the user pressed the X button          *)
| AutoDismissFired   (* the 10 s timeout ran [handleDismiss]   *)
| OnDismissCalled    (* [onDismiss] ran                        *)
| Unmounted.         (* React removed the card; cleanup ran    *)

Section Component.
Context {num : Type} {N : Number num}.

(** The [alert] prop; [onDismiss] is [() => dismissAlert(alert.id)] of the
    dashboard. *)
Variable alert : Dashboard.AlertRecord num.

(** One card with the browser's timer table and the dashboard that
    rendered it.  Timers are kept in the order of their registration and
    run when the clock reaches [due], the earlier registered first. *)
Record Sim : Type := mkSim {
  clock : Z;
  next_handle : nat;
  timers : list Timer;
  isVisible : bool;
  is_mounted : bool;
  timer : option nat;                 (* [const timer] of the effect *)
  world : Dashboard.World num;
  log : list (Z * Happened)
}.

Definition note (e : Happened) (s : Sim) : Sim :=
  mkSim (clock s) (next_handle s) (timers s) (isVisible s) (is_mounted s)
        (timer s) (world s) (log s ++ [(clock s, e)]).

Definition setTimeout (cb : Callback) (delay : Z) (s : Sim) : nat * Sim :=
  (next_handle s,
   mkSim (clock s) (S (next_handle s))
         (timers s ++ [mkTimer (next_handle s) (clock s + delay) cb])
         (isVisible s) (is_mounted s) (timer s) (world s) (log s)).

Definition clearTimeout (h : nat) (s : Sim) : Sim :=
  mkSim (clock s) (next_handle s)
        (List.filter (fun t => negb (Nat.eqb (handle t) h)) (timers s))
        (isVisible s) (is_mounted s) (timer s) (world s) (log s).

(** A state update of a card that is gone has no effect. *)
Definition setIsVisible (b : bool) (s : Sim) : Sim :=
  if is_mounted s then
    mkSim (clock s) (next_handle s) (timers s) b (is_mounted s)
          (timer s) (world s) (log s)
  else s.

(** The effect of the card, run once when it is mounted. *)
Definition mount_effect (s : Sim) : Sim :=
  let s1 := snd (setTimeout show_card 100 s) in
  let '(t, s2) := setTimeout auto_dismiss 10000 s1 in
  mkSim (clock s2) (next_handle s2) (timers s2) (isVisible s2) true
        (Some t) (world s2) (log s2).

(** [return () => clearTimeout(timer)] *)
Definition effect_cleanup (s : Sim) : Sim :=
  match timer s with
  | Some t => clearTimeout t s
  | None => s
  end.

Definition handleDismiss (s : Sim) : Sim :=
  snd (setTimeout call_onDismiss 300 (setIsVisible false s)).

(** The dashboard renders one card per queued record, keyed by its id:
    the card is unmounted, and its cleanup run, once no queued record
    carries the id. *)
Definition queued (w : Dashboard.World num) : bool :=
  existsb (fun a => String.eqb (Dashboard.id a) (Dashboard.id alert))
          (Dashboard.alerts w).

Definition reconcile (s : Sim) : Sim :=
  if is_mounted s && negb (queued (world s)) then
    let s1 := effect_cleanup s in
    note Unmounted
      (mkSim (clock s1) (next_handle s1) (timers s1) (isVisible s1) false
             (timer s1) (world s1) (log s1))
  else s.

Definition onDismiss (s : Sim) : Sim :=
  let w := snd (Dashboard.dismissAlert (Dashboard.id alert) (world s)) in
  reconcile
    (note OnDismissCalled
       (mkSim (clock s) (next_handle s) (timers s) (isVisible s)
              (is_mounted s) (timer s) w (log s))).

Definition run_callback (cb : Callback) (s : Sim) : Sim :=
  match cb with
  | show_card => setIsVisible true s
  | auto_dismiss => handleDismiss (note AutoDismissFired s)
  | call_onDismiss => onDismiss s
  end.

(** The pending timer to run next among those due by [until]: the least
    [due], the earliest registered among equals. *)
Fixpoint next_timer (until : Z) (best : option Timer) (ts : list Timer)
  : option Timer :=
  match ts with
  | [] => best
  | t :: ts' =>
      if due t <=? until then
        match best with
        | Some b => if due t <? due b then next_timer until (Some t) ts'
                    else next_timer until best ts'
        | None => next_timer until (Some t) ts'
        end
      else next_timer until best ts'
  end.

Definition at_time (t : Z) (s : Sim) : Sim :=
  mkSim (Z.max (clock s) t) (next_handle s) (timers s) (isVisible s)
        (is_mounted s) (timer s) (world s) (log s).

(** The event loop up to time [until]. *)
Fixpoint run (fuel : nat) (until : Z) (s : Sim) : option Sim :=
  match fuel with
  | O => None
  | S fuel' =>
      match next_timer until None (timers s) with
      | None => Some (at_time until s)
      | Some t =>
          run fuel' until
            (run_callback (callback t)
               (clearTimeout (handle t) (at_time (due t) s)))
      end
  end.

(** A card mounted at time 0 for a dashboard [w]. *)
Definition mounted_at_0 (w : Dashboard.World num) : Sim :=
  mount_effect (mkSim 0 0 [] false false None w []).

(** The X button, pressed at time [t] if the card is still there. *)
Definition click (fuel : nat) (t : Z) (s : Sim) : option Sim :=
  match run fuel t s with
  | Some s' => Some (if is_mounted s' then handleDismiss (note Clicked s') else s')
  | None => None
  end.

(** The life of a card: mounted at 0, clicked at [t] or never, observed
    until [horizon]. *)
Definition life (w : Dashboard.World num) (clicked : option Z) (horizon : Z)
  : option Sim :=
  match clicked with
  | None => run 8 horizon (mounted_at_0 w)
  | Some t =>
      match click 8 t (mounted_at_0 w) with
      | Some s => run 8 horizon s
      | None => None
      end
  end.

(** What is seen of a card that is clicked [t] ms after it was mounted,
    or never. *)
Definition observed (w : Dashboard.World num) (clicked : option Z)
  : option (list (Z * Happened)) :=
  option_map log (life w clicked 20000).

End Component.

End AlertNotification.

(* ===================================================================== *)
(** * src/components/VoiceRecorder.tsx                                    *)
(* ===================================================================== *)

Module VoiceRecorder.

Record Blob : Type := mkBlob {
  bytes : list Byte.byte;
  type : string
}.

(** [new Blob(parts, { type })]: the parts in order; the type in lower
    case, or empty when it has a character outside U+0020-U+007E. *)
Definition printable (c : ascii) : bool :=
  ((32 <=? nat_of_ascii c) && (nat_of_ascii c <=? 126))%nat.

Definition Blob_new (parts : list Blob) (type0 : string) : Blob :=
  mkBlob (List.concat (List.map bytes parts))
         (if forallb printable (list_ascii_of_string type0)
          then toLowerCase type0 else EmptyString).

Record Toast : Type := mkToast {
  title : string;
  description : string;
  destructive : bool
}.

(** The double quote of the success message. *)
Definition quote : ascii := ascii_of_nat 34.

(** A [FormData] entry. *)
Inductive Entry : Type :=
| file_entry (name : string) (blob : Blob) (filename : string)
| text_entry (name : string) (value : string).

Section Component.
Context {num : Type} {N : Number num}.

(** The browser: which recording formats it supports, the URL it makes for
    a blob, and how it prints a number. *)
Variable MediaRecorder_isTypeSupported : string -> bool.
Variable URL_createObjectURL : Blob -> string.
Variable Number_toString : num -> string.

(** The [useState] cells and refs of the component, the toasts it has
    shown, the [hazardAPI.reportVoice] requests it has sent and the calls
    of [onHazardReported] it has made. *)
Record State : Type := mkState {
  isRecording : bool;
  audioBlob : option Blob;
  audioUrl : string;
  uploading : bool;
  mediaRecorderRef : option string;      (* the recorder, by its mimeType *)
  audioChunksRef : list Blob;
  toasts : list Toast;
  reportVoice_requests : list (list Entry);
  onHazardReported_calls : nat
}.

Definition initial : State :=
  mkState false None EmptyString false None [] [] [] 0.

Definition toast (t : Toast) (s : State) : State :=
  mkState (isRecording s) (audioBlob s) (audioUrl s) (uploading s)
          (mediaRecorderRef s) (audioChunksRef s) (toasts s ++ [t])
          (reportVoice_requests s) (onHazardReported_calls s).

Definition setIsRecording (b : bool) (s : State) : State :=
  mkState b (audioBlob s) (audioUrl s) (uploading s)
          (mediaRecorderRef s) (audioChunksRef s) (toasts s)
          (reportVoice_requests s) (onHazardReported_calls s).

Definition setAudio (b : option Blob) (url : string) (s : State) : State :=
  mkState (isRecording s) b url (uploading s)
          (mediaRecorderRef s) (audioChunksRef s) (toasts s)
          (reportVoice_requests s) (onHazardReported_calls s).

Definition setUploading (b : bool) (s : State) : State :=
  mkState (isRecording s) (audioBlob s) (audioUrl s) b
          (mediaRecorderRef s) (audioChunksRef s) (toasts s)
          (reportVoice_requests s) (onHazardReported_calls s).

Definition set_audioChunksRef (chunks : list Blob) (s : State) : State :=
  mkState (isRecording s) (audioBlob s) (audioUrl s) (uploading s)
          (mediaRecorderRef s) chunks (toasts s)
          (reportVoice_requests s) (onHazardReported_calls s).

Definition set_mediaRecorderRef (r : option string) (s : State) : State :=
  mkState (isRecording s) (audioBlob s) (audioUrl s) (uploading s)
          r (audioChunksRef s) (toasts s)
          (reportVoice_requests s) (onHazardReported_calls s).

Definition hazardAPI_reportVoice (formData : list Entry) (s : State) : State :=
  mkState (isRecording s) (audioBlob s) (audioUrl s) (uploading s)
          (mediaRecorderRef s) (audioChunksRef s) (toasts s)
          (reportVoice_requests s ++ [formData]) (onHazardReported_calls s).

Definition onHazardReported (s : State) : State :=
  mkState (isRecording s) (audioBlob s) (audioUrl s) (uploading s)
          (mediaRecorderRef s) (audioChunksRef s) (toasts s)
          (reportVoice_requests s) (S (onHazardReported_calls s)).

(** *** [startRecording] *)

(** WAV if supported, otherwise WebM. *)
Definition mimeType : string :=
  if MediaRecorder_isTypeSupported "audio/wav" then "audio/wav"
  else if MediaRecorder_isTypeSupported "audio/webm;codecs=opus"
       then "audio/webm;codecs=opus"
       else "audio/webm".

(** The function after [await getUserMedia(...)]: the microphone was
    [granted] or the promise rejected.  [new MediaRecorder] throws for a
    format that is not supported; both failures end in the [catch]. *)
Definition startRecording (granted : bool) (s : State) : State :=
  if granted && MediaRecorder_isTypeSupported mimeType then
    toast (mkToast "Recording Started" "Speak clearly to report the hazard" false)
      (setIsRecording true
         (set_audioChunksRef [] (set_mediaRecorderRef (Some mimeType) s)))
  else
    toast (mkToast "Recording Failed"
             "Could not access microphone. Please allow microphone access." true)
      s.

(** [mediaRecorder.ondataavailable] *)
Definition ondataavailable (event_data : Blob) (s : State) : State :=
  if (0 <? length (bytes event_data))%nat
  then set_audioChunksRef (audioChunksRef s ++ [event_data]) s
  else s.

(** [mediaRecorder.onstop], of the recorder created for [mimeType0]. *)
Definition onstop (mimeType0 : string) (s : State) : State :=
  let blob := Blob_new (audioChunksRef s) mimeType0 in
  setAudio (Some blob) (URL_createObjectURL blob) s.

(** *** [stopRecording] *)
Definition stopRecording (s : State) : State :=
  match mediaRecorderRef s with
  | Some _ =>
      if isRecording s then
        toast (mkToast "Recording Stopped"
                 "Preview your recording before uploading" false)
          (setIsRecording false s)
      else s
  | None => s
  end.

(** The Clear button. *)
Definition clear (s : State) : State := setAudio None EmptyString s.

(** *** [uploadAudio]: up to the [await], and after it. *)

Definition extension (blob : Blob) : string :=
  if includes (type blob) "wav" then "wav" else "webm".

Definition uploadAudio (currentLocation : option (Location num)) (s : State)
  : State :=
  match audioBlob s, currentLocation with
  | Some blob, Some cl =>
      let formData :=
        [file_entry "file" blob ("hazard_report." ++ extension blob);
         text_entry "lat" (Number_toString (lat cl));
         text_entry "lon" (Number_toString (lon cl))] in
      hazardAPI_reportVoice formData (setUploading true s)
  | _, _ =>
      toast (mkToast "Upload Failed" "Missing audio or location data" true) s
  end.

(** What the request settles with: the server's classification, or an
    error with the message of its response, if it has one. *)
Record Classified : Type := mkClassified {
  r_description : string;
  r_classified_as : string;
  r_confidence : num
}.

Definition uploadAudio_settled (outcome : Classified + option string)
    (s : State) : State :=
  setUploading false
    match outcome with
    | inl data =>
        let message :=
          (String quote (r_description data) ++ String quote EmptyString
           ++ " - Classified as: " ++ r_classified_as data
           ++ " (" ++ Number_toString (r_confidence data) ++ "% confidence)")%string in
        onHazardReported
          (set_audioChunksRef []
             (setAudio None EmptyString
                (toast (mkToast "Hazard Reported Successfully" message false) s)))
    | inr error =>
        let errorMsg :=
          if truthy error then default EmptyString error
          else "Could not upload hazard report. Please try again."%string in
        toast (mkToast "Upload Failed" errorMsg true) s
    end.

(** One recording, start to stop: the microphone is granted, the recorder
    delivers [chunks], the user stops, the recorder stops. *)
Definition record_session (chunks : list Blob) (s : State) : State :=
  let s1 := startRecording true s in
  let s2 := fold_left (fun st c => ondataavailable c st) chunks s1 in
  onstop mimeType (stopRecording s2).

(** What can happen to the component, and any sequence of it. *)
Inductive Action : Type :=
| StartRecording (granted : bool)
| DataAvailable (event_data : Blob)
| RecorderStopped (mimeType0 : string)
| StopRecording
| Clear
| UploadAudio (currentLocation : option (Location num))
| UploadSettled (outcome : Classified + option string).

Definition act (s : State) (a : Action) : State :=
  match a with
  | StartRecording granted => startRecording granted s
  | DataAvailable d => ondataavailable d s
  | RecorderStopped m => onstop m s
  | StopRecording => stopRecording s
  | Clear => clear s
  | UploadAudio cl => uploadAudio cl s
  | UploadSettled o => uploadAudio_settled o s
  end.

Definition acts (l : list Action) : State := fold_left act l initial.

(** Which controls the component renders. *)
Definition start_button (s : State) : bool :=
  negb (isRecording s) && negb (bool_decide (is_Some (audioBlob s))).

Definition stop_button (s : State) : bool := isRecording s.

Definition preview (s : State) : bool :=
  negb (String.eqb (audioUrl s) EmptyString) && negb (isRecording s).

(** A recording and its URL come and go together. *)
Definition consistent (s : State) : Prop :=
  audioBlob s = None <-> audioUrl s = EmptyString.

End Component.

End VoiceRecorder.

(* ===================================================================== *)
(** * src/contexts/LocationContext.tsx                                    *)
(* ===================================================================== *)

Module LocationContext.

(** What a [getCurrentPosition] request calls back with. *)
Inductive PositionResult (num : Type) : Type :=
| position (coords : Location num)
| position_error.
Arguments position {num} coords.
Arguments position_error {num}.

Section Provider.
Context {num : Type}.

(** The provider's state, with the [hazardAPI.updateLocation] requests it
    has sent, the positions it has asked the device for, and whether its
    30 s interval is running. *)
Record State : Type := mkState {
  currentLocation : option (Location num);
  locationError : option string;
  updateLocation_requests : list (Location num);
  getCurrentPosition_calls : nat;
  interval_running : bool
}.

Definition initial : State := mkState None None [] 0 false.

Definition updateLocation (isAuthenticated : bool) (location : Location num)
    (s : State) : State :=
  mkState (Some location) (locationError s)
          (if isAuthenticated
           then updateLocation_requests s ++ [location]
           else updateLocation_requests s)
          (getCurrentPosition_calls s) (interval_running s).

Definition setLocationError (e : string) (s : State) : State :=
  mkState (currentLocation s) (Some e) (updateLocation_requests s)
          (getCurrentPosition_calls s) (interval_running s).

Definition getCurrentPosition (s : State) : State :=
  mkState (currentLocation s) (locationError s) (updateLocation_requests s)
          (S (getCurrentPosition_calls s)) (interval_running s).

(** The effect on [isAuthenticated]; [geolocation] tells whether
    [navigator.geolocation] exists. *)
Definition effect (isAuthenticated geolocation : bool) (s : State) : State :=
  if isAuthenticated then
    let s1 := if geolocation then getCurrentPosition s else s in
    mkState (currentLocation s1) (locationError s1)
            (updateLocation_requests s1) (getCurrentPosition_calls s1) true
  else s.

(** [return () => clearInterval(intervalId)] *)
Definition effect_cleanup (s : State) : State :=
  mkState (currentLocation s) (locationError s) (updateLocation_requests s)
          (getCurrentPosition_calls s) false.

(** One turn of the interval. *)
Definition tick (geolocation : bool) (s : State) : State :=
  if interval_running s && geolocation then getCurrentPosition s else s.

(** The callbacks of the first request and of the interval's requests; they
    belong to an effect run with [isAuthenticated] true. *)
Definition on_initial_result (r : PositionResult num) (s : State) : State :=
  match r with
  | position coords => updateLocation true coords s
  | position_error =>
      setLocationError
        "Could not get your location. Please enable location services." s
  end.

Definition on_interval_result (r : PositionResult num) (s : State) : State :=
  match r with
  | position coords => updateLocation true coords s
  | position_error => s
  end.

(** The results that arrive, in the order of their arrival. *)
Inductive Arrival : Type :=
| initial_result (r : PositionResult num)
| interval_result (r : PositionResult num).

Definition arrive (s : State) (a : Arrival) : State :=
  match a with
  | initial_result r => on_initial_result r s
  | interval_result r => on_interval_result r s
  end.

Definition arrivals (l : list Arrival) (s : State) : State :=
  fold_left arrive l s.

(** The positions among the results, in order. *)
Definition fix_of (a : Arrival) : option (Location num) :=
  match a with
  | initial_result (position c) | interval_result (position c) => Some c
  | _ => None
  end.

Definition initial_failed (a : Arrival) : bool :=
  match a with
  | initial_result position_error => true
  | _ => false
  end.

End Provider.

Arguments State : clear implicits.
Arguments Arrival : clear implicits.

End LocationContext.

(* ===================================================================== *)
(** * src/contexts/AuthContext.tsx and the request interceptor of
      src/lib/api.ts                                                       *)
(* ===================================================================== *)

Module AuthContext.

Record User : Type := mkUser {
  user_id : string;
  name : string;
  token : string
}.

(** [LoginData] and [SignupData] of [@/lib/api]. *)
Record LoginData : Type := mkLoginData {
  l_user_id : string;
  l_password : string
}.

Record SignupData : Type := mkSignupData {
  s_user_id : string;
  s_name : string;
  s_password : string
}.

(** The provider's [user] cell, the browser's [localStorage] and the titles
    of the toasts shown. *)
Record State : Type := mkState {
  user : option User;
  localStorage : gmap string string;
  toasts : list string
}.

Definition isAuthenticated (s : State) : bool :=
  match user s with Some _ => true | None => false end.

(** The effect run once on mount: the session kept in [localStorage]. *)
Definition restore (s : State) : State :=
  let token0 := localStorage s !! "token" in
  let user_id0 := localStorage s !! "user_id" in
  let name0 := localStorage s !! "name" in
  if truthy token0 && truthy user_id0 then
    mkState (Some (mkUser (default EmptyString user_id0)
                          (if truthy name0 then default EmptyString name0
                           else EmptyString)
                          (default EmptyString token0)))
            (localStorage s) (toasts s)
  else s.

(** [login] after [authAPI.login] resolved with [token0] in its data. *)
Definition login_resolved (d : LoginData) (token0 : string) (s : State) : State :=
  mkState (Some (mkUser (l_user_id d) EmptyString token0))
          (<["user_id" := l_user_id d]> (<["token" := token0]> (localStorage s)))
          (toasts s ++ ["Login Successful"]).

(** [login] after the request was rejected; the error is thrown on. *)
Definition login_rejected (s : State) : State :=
  mkState (user s) (localStorage s) (toasts s ++ ["Login Failed"]).

Definition signup_resolved (d : SignupData) (token0 : string) (s : State) : State :=
  mkState (Some (mkUser (s_user_id d) (s_name d) token0))
          (<["name" := s_name d]>
             (<["user_id" := s_user_id d]>
                (<["token" := token0]> (localStorage s))))
          (toasts s ++ ["Signup Successful"]).

Definition signup_rejected (s : State) : State :=
  mkState (user s) (localStorage s) (toasts s ++ ["Signup Failed"]).

Definition logout (s : State) : State :=
  mkState None
          (delete "name" (delete "user_id" (delete "token" (localStorage s))))
          (toasts s ++ ["Logged Out"]).

(** The first request interceptor of [@/lib/api]: the stored token, when
    there is one, goes into the [Authorization] header. *)
Definition attach_token (storage : gmap string string)
    (headers : gmap string string) : gmap string string :=
  if truthy (storage !! "token")
  then <["Authorization" := ("Bearer " ++ default EmptyString (storage !! "token"))%string]> headers
  else headers.

(** The page is loaded again: a new provider over the same
    [localStorage], which runs its mount effect. *)
Definition reload (s : State) : State :=
  restore (mkState None (localStorage s) []).

End AuthContext.

(* ===================================================================== *)
(** * An engine's [Math] and [Date], where evaluations need them          *)
(* ===================================================================== *)

Module Engine.

Local Open Scope float_scope.

(** [Math.sin], [Math.cos] and [Math.atan2] are given at the arguments that
    the evaluations in this file reach; elsewhere the functions below are
    placeholders that no evaluation reads.

    - [Math.sin(1.0122909661567112)] (58 degrees) is [0.8480480961564261]
      in V8 (the fdlibm routine), 0.59 ulp above the exact sine; the correctly rounded value is
      [0.848048096156426].
    - [Math.cos(1.0122909661567112)] is [0.5299192642332049], the correctly
      rounded value, and the cosine is even.
    - [Math.sin(PI / 2)] is [1], and [Math.sin(0)] is [0].
    - [Math.atan2(y, x)] is NaN when an argument is NaN, and
      [Math.atan2(0, 1)] is [0]. *)

Definition Math_sin (x : float) : float :=
  if x =? 0x1.03258031ade7cp+0 then 0x1.b2335c2cda946p-1
  else if x =? 0x1.921fb54442d18p+0 then 1
  else 0.

Definition Math_cos (x : float) : float :=
  if abs x =? 0x1.03258031ade7cp+0 then 0x1.0f5193eacdd2ap-1
  else 1.

Definition Math_atan2 (y x : float) : float :=
  if is_nan y || is_nan x then nan else 0.

(** [new Date(s).getTime()] for two ISO timestamps; a string that is not a
    date gives NaN. *)
Definition Date_getTime (s : string) : float :=
  if String.eqb s "2024-05-01T10:00:00Z" then 1714557600000
  else if String.eqb s "2024-05-02T10:00:00Z" then 1714644000000
  else nan.

(** The program's numbers on that engine. *)
Definition js : Number float := binary64 Math_sin Math_cos Math_atan2.



End Engine.

(* ===================================================================== *)
(** * The specification's formulas                                        *)
(* ===================================================================== *)

Module Spec.

Local Open Scope R_scope.

(** Degrees to radians. *)
Definition radians (deg : R) : R := deg * PI / 180.

(** The great-circle distance of section 4.2, over the real numbers:
    [a = sin²(Δlat/2) + cos(lat1)·cos(lat2)·sin²(Δlon/2)] and
    [distance = 2·R·atan2(√a, √(1-a))] with [R = 6371]. *)
Definition haversine (lat1 lon1 lat2 lon2 : R) : R :=
  let earth_radius := 6371 in
  let dlat := radians lat2 - radians lat1 in
  let dlon := radians lon2 - radians lon1 in
  let a := (sin (dlat / 2))² +
           cos (radians lat1) * cos (radians lat2) * (sin (dlon / 2))² in
  2 * earth_radius * Ratan2 (R_sqrt.sqrt a) (R_sqrt.sqrt (1 - a)).

End Spec.

(* ===================================================================== *)
(** * Concrete inputs                                                     *)
(* ===================================================================== *)

Module Scenario.

(** The position of the specification's scenarios. *)
Definition here : Location R := mkLocation 40%R (-74)%R.

(** A [hazard_alert] payload, with or without its [location] field. *)
Definition pothole (loc : option (Location R)) : Dashboard.AlertData R :=
  Dashboard.mkAlertData "pothole" "Large pothole ahead" 90%R loc
                        "2024-05-01T10:00:00Z" "u1".

Definition flood (loc : option (Location R)) : Dashboard.AlertData R :=
  Dashboard.mkAlertData "flood" "Road under water" 75%R loc
                        "2024-05-01T10:00:00Z" "u2".

(** The dashboard after its first render: nothing fetched, nothing queued. *)
Definition fresh_world : Dashboard.World R :=
  Dashboard.mkWorld [] true [] 0 [].

(** A clock reading, in milliseconds since the epoch. *)
Definition t0 : Z := 1700000000000.

End Scenario.

(* ===================================================================== *)
(** * Properties                                                          *)
(* ===================================================================== *)

(** ** The distance routine *)

(** C9. The distance routines of the three call sites (the dashboard's
    admission test, the list's sorting and the map's annotation) agree on
    every pair of positions, in every number system.  Each is a function of
    its four arguments alone: no world is threaded through it. *)
Theorem calculateDistance_three_call_sites :
  forall (num : Type) (N : Number num) (lat1 lon1 lat2 lon2 : num),
    Dashboard.calculateDistance lat1 lon1 lat2 lon2
      = HazardList.calculateDistance lat1 lon1 lat2 lon2
    /\ HazardList.calculateDistance lat1 lon1 lat2 lon2
      = HazardMap.calculateDistance lat1 lon1 lat2 lon2
    /\ HazardMap.calculateDistance lat1 lon1 lat2 lon2
      = Dashboard.calculateDistance lat1 lon1 lat2 lon2.
Proof. intros; repeat split; reflexivity. Qed.

Lemma half_angle_congr (f : R -> R) (x y : R) :
  x = y -> (f (x / 2) * f (x / 2) = (f (y / 2))²)%R.
Proof. intros ->. reflexivity. Qed.

(** The formula of C2, in exact arithmetic: over the real numbers the
    dashboard's [calculateDistance] is the haversine distance in kilometres
    for Earth radius 6371, the arguments being degrees.  (What the program
    returns in binary64 is the subject of [calculateDistance_antipode_nan]
    below.) *)
Theorem calculateDistance_is_haversine :
  forall lat1 lon1 lat2 lon2 : R,
    Dashboard.calculateDistance (N := real) lat1 lon1 lat2 lon2
      = Spec.haversine lat1 lon1 lat2 lon2.
Proof.
  intros lat1 lon1 lat2 lon2.
  unfold Dashboard.calculateDistance, Spec.haversine, Spec.radians; cbn.
  assert (Hlat : ((lat2 - lat1) * PI / 180 = lat2 * PI / 180 - lat1 * PI / 180)%R)
    by lra.
  assert (Hlon : ((lon2 - lon1) * PI / 180 = lon2 * PI / 180 - lon1 * PI / 180)%R)
    by lra.
  rewrite (half_angle_congr sin _ _ Hlat).
  rewrite Rmult_assoc, (half_angle_congr sin _ _ Hlon).
  ring.
Qed.

(** ** The geo-filter *)

Section GeoFilter.
Context {num : Type} {N : Number num}.
Import Dashboard.

Lemma app_singleton_neq {A} (l : list A) (x : A) : l ++ [x] <> l.
Proof.
  intros E. apply (f_equal (@length A)) in E.
  rewrite length_app in E. simpl in E. lia.
Qed.

(** The handler on a payload that carries a location. *)
Lemma on_hazard_alert_located cur now d loc (w : World num) :
  location d = Some loc ->
  on_hazard_alert cur now d w =
    match cur with
    | Some cl =>
        if (calculateDistance (lat cl) (lon cl) (lat loc) (lon loc) <=? lit 3)%js
        then (inr tt,
              mkWorld (hazards w) (loading w)
                      (alerts w ++ [mkAlertRecord d (Date_now_toString now)])
                      (S (getHazards_requests w)) (toasts w))
        else (inr tt, w)
    | None => (inr tt, w)
    end.
Proof.
  intros Hloc. unfold on_hazard_alert, data_location_lat, data_location_lon.
  destruct cur as [cl|]; [|reflexivity].
  rewrite Hloc. unfold bind, ret. cbn.
  destruct (le _ _); reflexivity.
Qed.

(** The handler on a payload without the [location] field. *)
Lemma on_hazard_alert_unlocated cur now d (w : World num) :
  location d = None ->
  on_hazard_alert cur now d w =
    match cur with
    | Some _ =>
        (inl (TypeError "Cannot read properties of undefined (reading 'lat')"), w)
    | None => (inr tt, w)
    end.
Proof.
  intros Hloc. unfold on_hazard_alert, data_location_lat.
  destruct cur; [|reflexivity].
  rewrite Hloc. reflexivity.
Qed.
End GeoFilter.

(** C1. An incoming event that carries a location is appended to the alert
    queue exactly when a current position is known and the computed
    distance to it is [<= 3]; otherwise the queue is left as it was; the
    handler returns normally.  With no position known the handler changes
    nothing, whatever the payload. *)
Theorem hazard_alert_admission :
  forall (num : Type) (N : Number num)
         (cur : option (Location num)) (now : Z)
         (d : Dashboard.AlertData num) (loc : Location num)
         (w : Dashboard.World num),
    Dashboard.location d = Some loc ->
    let admitted :=
      exists p, cur = Some p /\
        (Dashboard.calculateDistance (lat p) (lon p) (lat loc) (lon loc)
           <=? lit 3)%js = true in
    let out := Dashboard.on_hazard_alert cur now d w in
    fst out = inr tt
    /\ (Dashboard.alerts (snd out)
          = Dashboard.alerts w
              ++ [Dashboard.mkAlertRecord d (Date_now_toString now)]
        <-> admitted)
    /\ (~ admitted -> Dashboard.alerts (snd out) = Dashboard.alerts w)
    /\ (forall d' : Dashboard.AlertData num,
          Dashboard.on_hazard_alert None now d' w = (inr tt, w)).
Proof.
  intros num N cur now d loc w Hloc admitted out. subst admitted out.
  rewrite (on_hazard_alert_located cur now d loc w Hloc).
  destruct cur as [cl|].
  - destruct (le _ _) eqn:Hle; cbn.
    + repeat split; eauto.
      intros Hno. exfalso. apply Hno. eauto.
    + repeat split; try reflexivity.
      * intros E. symmetry in E. apply app_singleton_neq in E. contradiction.
      * intros (p & Hp & Hd). injection Hp as <-. congruence.
  - cbn. repeat split; try reflexivity.
    + intros E. symmetry in E. apply app_singleton_neq in E. contradiction.
    + intros (p & Hp & _). discriminate.
Qed.

(** The admission test in binary64, whatever the engine's [Math]: a
    distance of exactly 3 passes, 3.001 does not, and neither does NaN. *)
Lemma admission_boundary_binary64
    (sin cos : float -> float) (atan2 : float -> float -> float) :
  let js := binary64 sin cos atan2 in
  @le _ js 3%float (@lit _ js 3) = true
  /\ @le _ js 0x1.8020c49ba5e35p+1%float (@lit _ js 3) = false   (* 3.001 *)
  /\ @le _ js nan (@lit _ js 3) = false.
Proof. repeat split; reflexivity. Qed.

(** C1 at a concrete input: an event at the user's own position, handled
    by the dashboard as first rendered. *)
Lemma hazard_alert_admission_witness :
  Dashboard.location (Scenario.pothole (Some Scenario.here)) = Some Scenario.here
  /\ let admitted :=
       exists p, Some Scenario.here = Some p /\
         (Dashboard.calculateDistance (lat p) (lon p)
            (lat Scenario.here) (lon Scenario.here) <=? lit 3)%js = true in
     let out := Dashboard.on_hazard_alert (Some Scenario.here) Scenario.t0
                  (Scenario.pothole (Some Scenario.here)) Scenario.fresh_world in
     fst out = inr tt
     /\ (Dashboard.alerts (snd out)
           = Dashboard.alerts Scenario.fresh_world
               ++ [Dashboard.mkAlertRecord (Scenario.pothole (Some Scenario.here))
                     (Date_now_toString Scenario.t0)]
         <-> admitted)
     /\ (~ admitted ->
         Dashboard.alerts (snd out) = Dashboard.alerts Scenario.fresh_world)
     /\ (forall d' : Dashboard.AlertData R,
           Dashboard.on_hazard_alert None Scenario.t0 d' Scenario.fresh_world
             = (inr tt, Scenario.fresh_world)).
Proof.
  split.
  - reflexivity.
  - apply (hazard_alert_admission R real (Some Scenario.here) Scenario.t0
             (Scenario.pothole (Some Scenario.here)) Scenario.here
             Scenario.fresh_world).
    reflexivity.
Defined.

(** C3, as stated, fails: with a position known, a payload without the
    [location] field makes the handler throw. *)
Lemma missing_location_throws :
  Dashboard.on_hazard_alert (Some Scenario.here) Scenario.t0
      (Scenario.pothole None) Scenario.fresh_world
    = (inl (Dashboard.TypeError
              "Cannot read properties of undefined (reading 'lat')"),
       Scenario.fresh_world).
Proof. reflexivity. Qed.

(** C3, amended. A payload without the [location] field never changes the
    world: nothing is queued and no refresh is requested.  The handler
    returns normally when no position is known, and throws a [TypeError]
    when one is. *)
Theorem missing_location_not_admitted :
  forall (num : Type) (N : Number num)
         (cur : option (Location num)) (now : Z)
         (d : Dashboard.AlertData num) (w : Dashboard.World num),
    Dashboard.location d = None ->
    snd (Dashboard.on_hazard_alert cur now d w) = w
    /\ (cur = None -> fst (Dashboard.on_hazard_alert cur now d w) = inr tt)
    /\ (forall p, cur = Some p ->
          exists msg,
            fst (Dashboard.on_hazard_alert cur now d w)
              = inl (Dashboard.TypeError msg)).
Proof.
  intros num N cur now d w Hloc.
  rewrite (on_hazard_alert_unlocated cur now d w Hloc).
  destruct cur; cbn; repeat split; try discriminate; eauto.
Qed.

(** C3, amended, at a concrete input: the payload without [location],
    with a position known. *)
Lemma missing_location_not_admitted_witness :
  Dashboard.location (Scenario.pothole None) = None
  /\ snd (Dashboard.on_hazard_alert (Some Scenario.here) Scenario.t0
            (Scenario.pothole None) Scenario.fresh_world)
       = Scenario.fresh_world
  /\ (Some Scenario.here = None ->
      fst (Dashboard.on_hazard_alert (Some Scenario.here) Scenario.t0
             (Scenario.pothole None) Scenario.fresh_world) = inr tt)
  /\ (forall p, Some Scenario.here = Some p ->
        exists msg,
          fst (Dashboard.on_hazard_alert (Some Scenario.here) Scenario.t0
                 (Scenario.pothole None) Scenario.fresh_world)
            = inl (Dashboard.TypeError msg)).
Proof.
  split.
  - reflexivity.
  - apply (missing_location_not_admitted R real (Some Scenario.here) Scenario.t0
             (Scenario.pothole None) Scenario.fresh_world).
    reflexivity.
Defined.

(** ** The alert queue *)

Section AlertQueue.
Context {num : Type} {N : Number num}.
Import Dashboard.

(** What [dismissAlert] computes. *)
Lemma dismissAlert_alerts i (w : World num) :
  dismissAlert i w =
    (inr tt,
     mkWorld (hazards w) (loading w)
             (List.filter (fun a => negb (String.eqb (id a) i)) (alerts w))
             (getHazards_requests w) (toasts w)).
Proof. reflexivity. Qed.

(** After [dismissAlert i] no queued record carries [i], and the records
    that remain are those with another id, in the order they had. *)
Lemma dismissAlert_removes i (w : World num) :
  fst (dismissAlert i w) = inr tt
  /\ ~ In i (queue_ids (snd (dismissAlert i w)))
  /\ forall a, In a (alerts (snd (dismissAlert i w)))
               <-> In a (alerts w) /\ id a <> i.
Proof.
  rewrite dismissAlert_alerts; cbn. split; [reflexivity|]. split.
  - unfold queue_ids; cbn. rewrite in_map_iff. intros (a & Ha & Hin).
    apply filter_In in Hin as [_ Hne]. subst i.
    rewrite String.eqb_refl in Hne. discriminate.
  - intros a. rewrite filter_In, negb_true_iff.
    destruct (String.eqb_spec (id a) i); intuition congruence.
Qed.

(** Dismissing an id that is not queued changes nothing and does not throw. *)
Lemma dismissAlert_absent i (w : World num) :
  ~ In i (queue_ids w) -> dismissAlert i w = (inr tt, w).
Proof.
  intros Hni. rewrite dismissAlert_alerts. destruct w as [hs l q n ts]; cbn in *.
  f_equal. f_equal. unfold queue_ids in Hni; cbn in Hni.
  induction q as [|a q IH]; cbn in *; [reflexivity|].
  destruct (String.eqb_spec (id a) i) as [E|Hne]; cbn.
  - exfalso. apply Hni. now left.
  - f_equal. apply IH. intros Hin. apply Hni. now right.
Qed.

(** Dismissing twice is dismissing once. *)
Lemma dismissAlert_idempotent i (w : World num) :
  snd (dismissAlert i (snd (dismissAlert i w))) = snd (dismissAlert i w).
Proof.
  rewrite (dismissAlert_absent i (snd (dismissAlert i w))); [reflexivity|].
  apply dismissAlert_removes.
Qed.

(** Enqueue, then dismiss the new id: the queue is back to what it was,
    provided no record already queued carried that id. *)
Lemma enqueue_then_dismiss_fresh d now (w : World num) :
  ~ In (Date_now_toString now) (queue_ids w) ->
  alerts (snd (dismissAlert (Date_now_toString now)
                 (snd (setAlerts
                         (fun prev => prev ++ [mkAlertRecord d (Date_now_toString now)])
                         w))))
    = alerts w.
Proof.
  intros Hni. cbn. rewrite List.filter_app; cbn. rewrite String.eqb_refl; cbn.
  rewrite app_nil_r.
  pose proof (dismissAlert_absent _ _ Hni) as E.
  rewrite dismissAlert_alerts in E. injection E as E.
  destruct w; cbn in *. congruence.
Qed.

(** Distinct clock readings give distinct identifiers. *)
Lemma Date_now_toString_inj (t1 t2 : Z) :
  Date_now_toString t1 = Date_now_toString t2 -> t1 = t2.
Proof.
  unfold Date_now_toString. intros E.
  assert (Hnn : forall z, Z.to_int z <> Decimal.Pos Decimal.Nil
                          /\ Z.to_int z <> Decimal.Neg Decimal.Nil).
  { intros [|p|p]; cbn; split; try discriminate;
      intros Hp; injection Hp as Hp; now apply DecimalPos.Unsigned.to_uint_nonnil in Hp. }
  apply (f_equal NilZero.int_of_string) in E.
  rewrite !NilZero.isi in E by apply Hnn.
  injection E as E. now apply DecimalZ.to_int_inj.
Qed.
End AlertQueue.

(** C6. The handler sends exactly one [getHazards] request when it queues a
    record and none when it does not; and when a request settles, with a
    response or with a failure, the alert queue is what it was. *)
Theorem one_refresh_per_enqueue :
  forall (num : Type) (N : Number num)
         (cur : option (Location num)) (now : Z)
         (d : Dashboard.AlertData num) (w : Dashboard.World num),
    let w' := snd (Dashboard.on_hazard_alert cur now d w) in
    ((Dashboard.alerts w' = Dashboard.alerts w
      /\ Dashboard.getHazards_requests w' = Dashboard.getHazards_requests w)
     \/ (Dashboard.alerts w'
           = Dashboard.alerts w
               ++ [Dashboard.mkAlertRecord d (Date_now_toString now)]
         /\ Dashboard.getHazards_requests w'
              = S (Dashboard.getHazards_requests w)))
    /\ forall (response : option (list (Hazard num))) (w0 : Dashboard.World num),
         fst (Dashboard.fetchHazards_settled response w0) = inr tt
         /\ Dashboard.alerts (snd (Dashboard.fetchHazards_settled response w0))
              = Dashboard.alerts w0.
Proof.
  intros num N cur now d w w'. subst w'. split.
  - destruct (Dashboard.location d) as [loc|] eqn:Hloc.
    + rewrite (on_hazard_alert_located cur now d loc w Hloc).
      destruct cur as [cl|]; [destruct (le _ _)|]; cbn; auto.
    + rewrite (on_hazard_alert_unlocated cur now d w Hloc).
      destruct cur; cbn; auto.
  - intros [hs|] w0; split; reflexivity.
Qed.

(** Over the real numbers a position is at distance 0 from itself, and so
    within the admission radius. *)
Lemma calculateDistance_same (la lo : R) :
  Dashboard.calculateDistance (N := real) la lo la lo = 0%R.
Proof.
  unfold Dashboard.calculateDistance; cbn.
  replace ((la - la) * PI / 180)%R with 0%R by lra.
  replace ((lo - lo) * PI / 180)%R with 0%R by lra.
  replace (0 / 2)%R with 0%R by lra.
  rewrite sin_0.
  match goal with
  | |- context [Ratan2 (R_sqrt.sqrt ?a) _] => replace a with 0%R by ring
  end.
  rewrite Rminus_0_r, sqrt_0, sqrt_1.
  unfold Ratan2. destruct (Rlt_dec 0 1) as [_|Hn]; [|exfalso; lra].
  replace (0 / 1)%R with 0%R by lra. rewrite atan_0. ring.
Qed.

Lemma same_position_admitted (la lo : R) :
  (Dashboard.calculateDistance (N := real) la lo la lo <=? lit 3)%js = true.
Proof.
  rewrite calculateDistance_same. cbn. unfold Rleb.
  destruct (Rle_dec 0 3) as [_|Hn]; [reflexivity|exfalso; lra].
Qed.

Lemma admit_here (now : Z) (d : option (Location R) -> Dashboard.AlertData R)
    (w : Dashboard.World R) :
  Dashboard.location (d (Some Scenario.here)) = Some Scenario.here ->
  snd (Dashboard.on_hazard_alert (Some Scenario.here) now
         (d (Some Scenario.here)) w)
    = Dashboard.mkWorld (Dashboard.hazards w) (Dashboard.loading w)
        (Dashboard.alerts w
           ++ [Dashboard.mkAlertRecord (d (Some Scenario.here))
                 (Date_now_toString now)])
        (S (Dashboard.getHazards_requests w)) (Dashboard.toasts w).
Proof.
  intros Hloc.
  rewrite (on_hazard_alert_located _ _ _ _ _ Hloc).
  rewrite same_position_admitted. reflexivity.
Qed.

(** C4, at two arrivals within one millisecond: both events are admitted,
    in arrival order, and both records carry the same id. *)
Theorem same_instant_arrivals_share_id :
  let w1 := snd (Dashboard.on_hazard_alert (Some Scenario.here) Scenario.t0
                   (Scenario.pothole (Some Scenario.here)) Scenario.fresh_world) in
  let w2 := snd (Dashboard.on_hazard_alert (Some Scenario.here) Scenario.t0
                   (Scenario.flood (Some Scenario.here)) w1) in
  List.map Dashboard.data (Dashboard.alerts w2)
    = [Scenario.pothole (Some Scenario.here); Scenario.flood (Some Scenario.here)]
  /\ Dashboard.queue_ids w2 = ["1700000000000"; "1700000000000"]%string
  /\ ~ List.NoDup (Dashboard.queue_ids w2).
Proof.
  cbv zeta.
  rewrite (admit_here Scenario.t0 Scenario.pothole) by reflexivity.
  rewrite (admit_here Scenario.t0 Scenario.flood) by reflexivity.
  repeat split.
  intros Hnd.
  change (List.NoDup ["1700000000000"; "1700000000000"]%string) in Hnd.
  apply List.NoDup_cons_iff in Hnd as [Hni _]. apply Hni. now left.
Qed.

(** C5, at the same input: the second record is enqueued on a queue of one
    and its id is dismissed; the queue is not the queue of one it was
    before the enqueue but empty. *)
Theorem dismiss_after_same_instant_enqueue :
  let w1 := snd (Dashboard.on_hazard_alert (Some Scenario.here) Scenario.t0
                   (Scenario.pothole (Some Scenario.here)) Scenario.fresh_world) in
  let w2 := snd (Dashboard.on_hazard_alert (Some Scenario.here) Scenario.t0
                   (Scenario.flood (Some Scenario.here)) w1) in
  let w3 := snd (Dashboard.dismissAlert (Date_now_toString Scenario.t0) w2) in
  Dashboard.alerts w1
    = [Dashboard.mkAlertRecord (Scenario.pothole (Some Scenario.here))
         "1700000000000"]
  /\ Dashboard.alerts w3 = []
  /\ Dashboard.alerts w3 <> Dashboard.alerts w1.
Proof.
  cbv zeta.
  rewrite (admit_here Scenario.t0 Scenario.pothole) by reflexivity.
  rewrite (admit_here Scenario.t0 Scenario.flood) by reflexivity.
  repeat split. discriminate.
Qed.

(** ** The live channel *)

Section LiveChannel.
Context {num : Type} {N : Number num}.
Import Dashboard.

Lemma replay_app (o : option nat) (tr1 tr2 : list SocketOp) :
  replay o (tr1 ++ tr2) =
    match replay o tr1 with
    | Some o' => replay o' tr2
    | None => None
    end.
Proof.
  revert o. induction tr1 as [|op tr1 IH]; intros o; cbn; [reflexivity|].
  destruct op as [s tok|s], o as [s0|]; try reflexivity; try apply IH.
  destruct (Nat.eqb s s0); [apply IH|reflexivity].
Qed.

Lemma unmounted_ok : channel_ok (@unmounted num).
Proof. split; reflexivity. Qed.

Lemma run_cleanup_ok (ch : Channel num) :
  channel_ok ch ->
  replay None (trace (run_cleanup ch)) = Some None
  /\ connected (run_cleanup ch) = []
  /\ cleanup (run_cleanup ch) = None
  /\ mounted (run_cleanup ch) = mounted ch
  /\ next_socket (run_cleanup ch) = next_socket ch.
Proof.
  intros [Htr Hco _]. unfold run_cleanup.
  destruct (cleanup ch) as [s|] eqn:Hcl; cbn.
  - rewrite replay_app, Htr; cbn. rewrite Nat.eqb_refl.
    repeat split.
    destruct (connected ch) as [|[s1 l1] [|c2 cs]]; try discriminate.
    cbn in *. injection Hco as ->. now rewrite Nat.eqb_refl.
  - repeat split; try assumption.
    destruct (connected ch); [reflexivity|discriminate].
Qed.

Lemma socket_effect_ok tok loc (ch : Channel num) :
  replay None (trace ch) = Some None ->
  connected ch = [] ->
  channel_ok (socket_effect tok loc ch)
  /\ connected (socket_effect tok loc ch)
       = if no_token tok then [] else [(next_socket ch, loc)].
Proof.
  intros Htr Hco. unfold socket_effect.
  destruct (no_token tok); cbn; rewrite Hco; (split; [split|]); cbn;
    try reflexivity; try discriminate; try assumption.
  rewrite replay_app, Htr. reflexivity.
Qed.

Lemma lifecycle_step_ok (ch : Channel num) (ev : Lifecycle num) :
  channel_ok ch -> channel_ok (lifecycle_step ch ev).
Proof.
  intros Hok. pose proof (run_cleanup_ok ch Hok) as (Htr & Hco & Hcl & Hmo & _).
  destruct ev as [tok loc|tok loc|]; cbn;
    destruct (mounted ch) eqn:Hm; try assumption.
  - destruct Hok as [Htr0 Hco0 Hun]. specialize (Hun Hm).
    rewrite Hun in Htr0, Hco0.
    apply socket_effect_ok; [assumption|].
    destruct (connected ch); [reflexivity|discriminate].
  - now apply socket_effect_ok.
  - split; cbn; [assumption| now rewrite Hco | reflexivity].
Qed.

Lemma lifecycle_ok (evs : list (Lifecycle num)) : channel_ok (lifecycle evs).
Proof.
  unfold lifecycle. generalize unmounted_ok. generalize (@unmounted num).
  induction evs as [|ev evs IH]; intros ch Hok; cbn; [assumption|].
  apply IH. now apply lifecycle_step_ok.
Qed.

Lemma lifecycle_snoc (evs : list (Lifecycle num)) (ev : Lifecycle num) :
  lifecycle (evs ++ [ev]) = lifecycle_step (lifecycle evs) ev.
Proof. unfold lifecycle. now rewrite fold_left_app. Qed.
End LiveChannel.

(** C8. After any sequence of mounts, dependency changes (token, location)
    and unmounts: sockets were connected and disconnected strictly in turn,
    each one disconnected before the next was connected; at most one socket
    is connected, so an inbound event reaches at most one handler; removing
    the token or unmounting leaves no socket connected; a change to a
    token that is present leaves exactly the new socket connected, its
    handler closed over the new location. *)
Theorem live_channel_exclusive :
  forall (num : Type) (N : Number num) (evs : list (Dashboard.Lifecycle num)),
    let ch := Dashboard.lifecycle evs in
    Dashboard.replay None (Dashboard.trace ch) = Some (Dashboard.cleanup ch)
    /\ (length (Dashboard.connected ch) <= 1)%nat
    /\ (forall now d, (length (Dashboard.deliver ch now d) <= 1)%nat)
    /\ (forall loc,
          Dashboard.connected
            (Dashboard.lifecycle (evs ++ [Dashboard.DepsChanged None loc])) = [])
    /\ Dashboard.connected (Dashboard.lifecycle (evs ++ [Dashboard.Unmount])) = []
    /\ (forall tok loc,
          Dashboard.connected
            (Dashboard.lifecycle (evs ++ [Dashboard.DepsChanged tok loc]))
            = if Dashboard.mounted ch && negb (Dashboard.no_token tok)
              then [(Dashboard.next_socket ch, loc)] else []).
Proof.
  intros num N evs ch.
  pose proof (lifecycle_ok evs) as Hok. fold ch in Hok.
  pose proof (run_cleanup_ok ch Hok) as (Htr & Hco & Hcl & Hmo & Hnx).
  assert (Hlen : (length (Dashboard.connected ch) <= 1)%nat).
  { rewrite <- (length_map fst), (Dashboard.ok_connected _ Hok).
    destruct (Dashboard.cleanup ch); cbn; lia. }
  assert (Hun : Dashboard.mounted ch = false -> Dashboard.connected ch = []).
  { intros Hm. pose proof (Dashboard.ok_connected _ Hok) as E.
    rewrite (Dashboard.ok_unmounted _ Hok Hm) in E.
    destruct (Dashboard.connected ch); [reflexivity|discriminate]. }
  repeat split.
  - apply (Dashboard.ok_trace _ Hok).
  - exact Hlen.
  - intros now d. unfold Dashboard.deliver. now rewrite length_map.
  - intros loc. rewrite lifecycle_snoc. fold ch. cbn.
    destruct (Dashboard.mounted ch) eqn:Hm; [|now apply Hun].
    cbn. exact Hco.
  - rewrite lifecycle_snoc. fold ch. cbn.
    destruct (Dashboard.mounted ch) eqn:Hm; [|now apply Hun].
    cbn. exact Hco.
  - intros tok loc. rewrite lifecycle_snoc. fold ch. cbn.
    destruct (Dashboard.mounted ch) eqn:Hm; [|now apply Hun].
    rewrite (proj2 (socket_effect_ok tok loc _ Htr Hco)), Hnx.
    now destruct (Dashboard.no_token tok).
Qed.

(** ** Auto-expiry of a card *)

Section AutoExpiry.
Context {num : Type} {N : Number num}.
Variable d : Dashboard.AlertData num.
Import AlertNotification.

(** A queue holding one record, and the card rendered for it. *)
Let a : Dashboard.AlertRecord num := Dashboard.mkAlertRecord d "1700000000000".
Let w : Dashboard.World num := Dashboard.mkWorld [] false [a] 0 [].

(** A card that is never clicked: the 10 s timeout runs [handleDismiss],
    and [onDismiss] removes the record 300 ms later, 10.3 s after the card
    was mounted. *)
Lemma unclicked_card_expires :
  observed a w None
    = Some [(10000, AutoDismissFired); (10300, OnDismissCalled); (10300, Unmounted)]
  /\ option_map (fun s => Dashboard.alerts (world s)) (life a w None 10299)
       = Some [a]
  /\ option_map (fun s => Dashboard.alerts (world s)) (life a w None 10300)
       = Some [].
Proof. repeat split; vm_compute; reflexivity. Qed.

(** Symbolic runs of the event loop: unfold one step, then settle the
    comparisons of due times that the step exposed. *)
Ltac settle_cmp :=
  match goal with
  | |- context [Z.leb ?x ?y] =>
      first [ rewrite (proj2 (Z.leb_le x y)) by lia
            | rewrite (proj2 (Z.leb_gt x y)) by lia ]
  | |- context [Z.ltb ?x ?y] =>
      first [ rewrite (proj2 (Z.ltb_lt x y)) by lia
            | rewrite (proj2 (Z.ltb_ge x y)) by lia ]
  | |- context [Z.max ?x ?y] =>
      first [ rewrite (Z.max_r x y) by lia
            | rewrite (Z.max_l x y) by lia ]
  end.

Ltac simulate :=
  unfold observed, life, click, mounted_at_0, mount_effect;
  repeat (cbn -[Z.leb Z.ltb Z.max Z.add]; try settle_cmp).

(** A click during the first 9.7 s: [onDismiss] runs once, 300 ms after the
    click; the card is unmounted then and its cleanup clears the 10 s
    timeout, which never runs. *)
Lemma early_click_cancels_expiry (t : Z) :
  0 <= t < 9700 ->
  observed a w (Some t)
    = Some [(t, Clicked); (t + 300, OnDismissCalled); (t + 300, Unmounted)].
Proof.
  intros Ht. destruct (Z.lt_ge_cases t 100); simulate; reflexivity.
Qed.

(** A click during the last 300 ms before the timeout: the card is still
    mounted when the 10 s timeout is due, so it runs [handleDismiss] again
    and [onDismiss] runs twice. *)
Lemma late_click_does_not_cancel (t : Z) :
  9700 <= t < 10000 ->
  observed a w (Some t)
    = Some [(t, Clicked); (10000, AutoDismissFired);
            (t + 300, OnDismissCalled); (t + 300, Unmounted);
            (10300, OnDismissCalled)].
Proof.
  intros Ht. simulate. reflexivity.
Qed.
End AutoExpiry.

(** C7, at a click 9.8 s after the card was mounted: the 10 s timeout is not
    cancelled; it runs [handleDismiss] at 10 s, after the manual dismissal,
    and [onDismiss] is called twice, at 10.1 s and at 10.3 s. *)
Theorem click_at_9800_dismisses_twice :
  forall (num : Type) (N : Number num) (d : Dashboard.AlertData num),
    let a := Dashboard.mkAlertRecord d "1700000000000" in
    let w := Dashboard.mkWorld [] false [a] 0 [] in
    AlertNotification.observed a w (Some 9800)
      = Some [(9800, AlertNotification.Clicked);
              (10000, AlertNotification.AutoDismissFired);
              (10100, AlertNotification.OnDismissCalled);
              (10100, AlertNotification.Unmounted);
              (10300, AlertNotification.OnDismissCalled)].
Proof. intros num N d a w. vm_compute. reflexivity. Qed.

(** ** The sorted listing *)

Section SortFacts.
Context {num : Type} {N : Number num} {A : Type}.
Variable comparefn : A -> A -> num.

Lemma sort_insert_perm (x : A) (l : list A) :
  Permutation (sort_insert comparefn x l) (x :: l).
Proof.
  induction l as [|y l IH]; cbn; [reflexivity|].
  destruct (lt _ _); [|reflexivity].
  rewrite IH. apply perm_swap.
Qed.

(** Whatever the comparison function, sorting only rearranges. *)
Lemma Array_sort_perm (l : list A) : Permutation (Array_sort comparefn l) l.
Proof.
  induction l as [|x l IH]; cbn; [reflexivity|].
  rewrite sort_insert_perm. now constructor.
Qed.
End SortFacts.

Section SortOrder.
Context {num : Type} {N : Number num} {A : Type}.
Variable comparefn : A -> A -> num.

(** [before x y]: [x] may stand in front of [y].  The comparison function
    is read through its sign test, the only use [sort] makes of it. *)
Variable before : A -> A -> Prop.
Hypothesis above_zero :
  forall x y, (lit 0 <? comparefn x y)%js = true -> before y x.
Hypothesis not_above_zero :
  forall x y, (lit 0 <? comparefn x y)%js = false -> before x y.

Lemma sort_insert_hd (x y : A) (l : list A) :
  before y x -> HdRel before y l -> HdRel before y (sort_insert comparefn x l).
Proof.
  intros Hyx Hhd. destruct l as [|z l]; cbn.
  - now constructor.
  - case_match; constructor; [now inversion Hhd | assumption].
Qed.

Lemma sort_insert_sorted (x : A) (l : list A) :
  Sorted before l -> Sorted before (sort_insert comparefn x l).
Proof.
  induction 1 as [|y l Hs IH Hhd]; cbn.
  - repeat constructor.
  - destruct (lit 0 <? comparefn x y)%js eqn:Hcmp.
    + constructor; [exact IH|].
      apply sort_insert_hd; [now apply above_zero | exact Hhd].
    + constructor; [now constructor|]. constructor. now apply not_above_zero.
Qed.

(** In any number system, a comparison function whose sign test decides
    [before] sorts by [before]. *)
Lemma Array_sort_sorted (l : list A) : Sorted before (Array_sort comparefn l).
Proof.
  induction l as [|x l IH]; cbn; [constructor|].
  now apply sort_insert_sorted.
Qed.
End SortOrder.

(** Over the reals, a comparison function that subtracts keys sorts by
    non-decreasing key. *)
Lemma Array_sort_by_key {A} (key : A -> R) (comparefn : A -> A -> R)
    (l : list A) :
  (forall x y, comparefn x y = (key x - key y)%R) ->
  Sorted (fun x y => (key x <= key y)%R) (Array_sort comparefn l).
Proof.
  intros Hkey. apply Array_sort_sorted; intros x y; cbn; unfold Rltb;
    rewrite Hkey; destruct (Rlt_dec 0 (key x - key y)); intros; try discriminate; lra.
Qed.

Lemma Sorted_weaken {A} (P Q : A -> A -> Prop) (l : list A) :
  (forall a b, P a b -> Q a b) -> Sorted P l -> Sorted Q l.
Proof.
  intros HPQ. induction 1 as [|x l Hs IH Hhd]; constructor; [exact IH|].
  destruct Hhd; constructor. now apply HPQ.
Qed.

(** The listing in exact arithmetic: the array the list component presents
    is a new array, the array it received is unchanged in the store, its
    content is a permutation of the received hazards, and over the real
    numbers it is in order of non-decreasing distance from the current
    position when one is known, and of non-increasing timestamp (most
    recent first) when none is. *)
Theorem sortedHazards_sorted_copy :
  forall (Date_getTime : string -> R) (cur : option (Location R))
         (hazards : nat) (hs : list (Hazard R))
         (h : gmap nat (list (Hazard R))),
    let store := <[hazards := hs]> h in
    let result := HazardList.sortedHazards Date_getTime cur hazards store in
    fst result <> hazards
    /\ snd result !! hazards = Some hs
    /\ exists sorted : list (Hazard R),
         snd result !! fst result = Some sorted
         /\ Permutation sorted hs
         /\ match cur with
            | Some cl =>
                Sorted (fun a b =>
                  (HazardList.calculateDistance (lat cl) (lon cl)
                     (lat (Api.location a)) (lon (Api.location a))
                   <= HazardList.calculateDistance (lat cl) (lon cl)
                        (lat (Api.location b)) (lon (Api.location b)))%R) sorted
            | None =>
                Sorted (fun a b =>
                  (Date_getTime (Api.timestamp b)
                   <= Date_getTime (Api.timestamp a))%R) sorted
            end.
Proof.
  intros Date_getTime cur hazards hs h store result.
  assert (Hin : hazards ∈ dom store).
  { subst store. rewrite dom_insert. set_solver. }
  assert (Hfresh : fresh (dom store) <> hazards).
  { intros E. apply (is_fresh (dom store)). now rewrite E. }
  assert (Hlook : store !! hazards = Some hs)
    by (subst store; apply lookup_insert_eq).
  subst result. unfold HazardList.sortedHazards, spread, sort_in_place.
  cbn [fst snd]. rewrite Hlook. cbn [default from_option].
  split; [exact Hfresh|]. split.
  - rewrite lookup_alter_ne by exact Hfresh.
    rewrite lookup_insert_ne by exact Hfresh. exact Hlook.
  - eexists. split; [|split].
    + rewrite lookup_alter_eq, lookup_insert_eq. reflexivity.
    + apply Array_sort_perm.
    + destruct cur as [cl|].
      * apply (Array_sort_by_key
                 (fun a => HazardList.calculateDistance (lat cl) (lon cl)
                             (lat (Api.location a)) (lon (Api.location a)))).
        reflexivity.
      * eapply Sorted_weaken;
          [|apply (Array_sort_by_key
                     (fun a => (- Date_getTime (Api.timestamp a))%R))].
        -- intros a b; cbn. lra.
        -- intros a b; cbn. lra.
Qed.

(* ===================================================================== *)
(** * Further properties of the components                                *)
(* ===================================================================== *)

(** ** The distance, over the real numbers *)

(** X1. The distance is symmetric: from A to B as from B to A. *)
Theorem calculateDistance_symmetric :
  forall lat1 lon1 lat2 lon2 : R,
    Dashboard.calculateDistance (N := real) lat1 lon1 lat2 lon2
      = Dashboard.calculateDistance (N := real) lat2 lon2 lat1 lon1.
Proof.
  intros lat1 lon1 lat2 lon2. unfold Dashboard.calculateDistance; cbn.
  replace ((lat1 - lat2) * PI / 180 / 2)%R
    with (- ((lat2 - lat1) * PI / 180 / 2))%R by lra.
  replace ((lon1 - lon2) * PI / 180 / 2)%R
    with (- ((lon2 - lon1) * PI / 180 / 2))%R by lra.
  rewrite !sin_neg.
  set (sa := sin ((lat2 - lat1) * PI / 180 / 2)).
  set (so := sin ((lon2 - lon1) * PI / 180 / 2)).
  set (c1 := cos (lat1 * PI / 180)). set (c2 := cos (lat2 * PI / 180)).
  replace (- sa * - sa + c2 * c1 * - so * - so)%R
    with (sa * sa + c1 * c2 * so * so)%R by ring.
  reflexivity.
Qed.

Lemma Ratan2_first_quadrant (y x : R) :
  (0 <= y -> 0 <= x -> 0 <= Ratan2 y x <= PI / 2)%R.
Proof.
  intros Hy Hx. pose proof PI_RGT_0 as Hpi. unfold Ratan2.
  destruct (Rlt_dec 0 x) as [Hpos|Hnpos].
  - pose proof (atan_bound (y / x)) as [_ Hub]. split; [|lra].
    destruct (Req_dec y 0) as [->|Hy0].
    + replace (0 / x)%R with 0%R by (field; lra). rewrite atan_0. lra.
    + rewrite <- atan_0. left. apply atan_increasing.
      apply Rdiv_lt_0_compat; lra.
  - destruct (Rlt_dec x 0); [lra|].
    destruct (Rlt_dec 0 y); [lra|].
    destruct (Rlt_dec y 0); lra.
Qed.

Lemma cos_valid_latitude (la : R) :
  (-90 <= la <= 90 -> 0 <= cos (la * PI / 180))%R.
Proof.
  intros Hla. pose proof PI_RGT_0 as Hpi. apply cos_ge_0; nra.
Qed.

Lemma sin_half_sqr (x : R) : (sin (x / 2) * sin (x / 2) = (1 - cos x) / 2)%R.
Proof.
  pose proof (cos_2a_sin (x / 2)) as E.
  replace (2 * (x / 2))%R with x in E by lra. lra.
Qed.

(** For valid latitudes the haversine term lies between 0 and 1. *)
Lemma haversine_term_unit (lat1 lon1 lat2 lon2 : R) :
  (-90 <= lat1 <= 90)%R -> (-90 <= lat2 <= 90)%R ->
  (0 <= sin ((lat2 - lat1) * PI / 180 / 2) * sin ((lat2 - lat1) * PI / 180 / 2)
        + cos (lat1 * PI / 180) * cos (lat2 * PI / 180)
          * sin ((lon2 - lon1) * PI / 180 / 2) * sin ((lon2 - lon1) * PI / 180 / 2)
     <= 1)%R.
Proof.
  intros H1 H2.
  pose proof (cos_valid_latitude lat1 H1) as Hc1.
  pose proof (cos_valid_latitude lat2 H2) as Hc2.
  rewrite sin_half_sqr.
  replace ((lat2 - lat1) * PI / 180)%R
    with (lat2 * PI / 180 - lat1 * PI / 180)%R by lra.
  rewrite cos_minus.
  set (x := (lat1 * PI / 180)%R) in *. set (y := (lat2 * PI / 180)%R) in *.
  pose proof (SIN_bound ((lon2 - lon1) * PI / 180 / 2)) as Hso.
  set (so := sin ((lon2 - lon1) * PI / 180 / 2)) in *.
  pose proof (COS_bound (y - x)) as Hm. rewrite cos_minus in Hm.
  pose proof (COS_bound (x + y)) as Hp. rewrite cos_plus in Hp.
  assert (Hso2 : (0 <= so * so <= 1)%R) by nra.
  assert (Hcc : (0 <= cos x * cos y)%R) by nra.
  assert (Hprod : (0 <= cos x * cos y * so * so <= cos x * cos y)%R) by nra.
  lra.
Qed.

(** The angle whose tangent is [sqrt a / sqrt (1 - a)] has sine [sqrt a]. *)
Lemma sin_Ratan2_sqrt (a : R) :
  (0 <= a <= 1 -> sin (Ratan2 (R_sqrt.sqrt a) (R_sqrt.sqrt (1 - a))) = R_sqrt.sqrt a)%R.
Proof.
  intros [Ha0 Ha1]. unfold Ratan2.
  destruct (Rlt_dec 0 (R_sqrt.sqrt (1 - a))) as [Hpos|Hnpos].
  - set (x := R_sqrt.sqrt (1 - a)) in *. set (y := R_sqrt.sqrt a).
    assert (Hxx : (x * x = 1 - a)%R).
    { apply sqrt_sqrt. destruct (Rle_dec 0 (1 - a)) as [|Hn]; [assumption|].
      exfalso. unfold x in Hpos. rewrite sqrt_neg_0 in Hpos; lra. }
    assert (Hyy : (y * y = a)%R) by (apply sqrt_sqrt; assumption).
    rewrite sin_atan.
    assert (Hs : R_sqrt.sqrt (1 + (y / x)²) = (1 / x)%R).
    { apply sqrt_lem_1.
      - unfold Rsqr. assert (0 <= y / x * (y / x))%R by nra. lra.
      - apply Rlt_le. apply Rdiv_lt_0_compat; lra.
      - unfold Rsqr.
        transitivity (1 / (x * x))%R; [field; lra|].
        transitivity ((x * x + y * y) / (x * x))%R; [|field; lra].
        rewrite Hxx, Hyy. unfold Rdiv. f_equal. lra. }
    rewrite Hs. field. lra.
  - assert (Hx0 : R_sqrt.sqrt (1 - a) = 0%R)
      by (pose proof (sqrt_pos (1 - a)); lra).
    assert (Ha : a = 1%R).
    { destruct (Req_dec a 1) as [|Hne]; [assumption|].
      exfalso. apply Hnpos. apply sqrt_lt_R0. lra. }
    subst a. rewrite sqrt_1.
    destruct (Rlt_dec (R_sqrt.sqrt (1 - 1)) 0) as [Hneg|_]; [lra|].
    destruct (Rlt_dec 0 1) as [_|Hn]; [|lra].
    apply sin_PI2.
Qed.

(** In exact arithmetic (the real-number instance, not the program's
    binary64): between two positions of valid latitude the distance [d] is at
    least 0 and at most half the circumference, [6371 * PI] km, and it is
    the arc that the haversine term determines: the squared sine of half
    the central angle [d / 6371] is that term. *)
Theorem calculateDistance_inverts_haversine :
  forall lat1 lon1 lat2 lon2 : R,
    (-90 <= lat1 <= 90)%R -> (-90 <= lat2 <= 90)%R ->
    let d := Dashboard.calculateDistance (N := real) lat1 lon1 lat2 lon2 in
    (0 <= d <= 6371 * PI
     /\ (sin (d / 6371 / 2))² =
          (sin ((lat2 - lat1) * PI / 180 / 2))²
          + cos (lat1 * PI / 180) * cos (lat2 * PI / 180)
            * (sin ((lon2 - lon1) * PI / 180 / 2))²)%R.
Proof.
  intros lat1 lon1 lat2 lon2 H1 H2 d.
  pose proof (haversine_term_unit lat1 lon1 lat2 lon2 H1 H2) as Ha.
  subst d. unfold Dashboard.calculateDistance; cbn.
  set (a := (sin ((lat2 - lat1) * PI / 180 / 2) * sin ((lat2 - lat1) * PI / 180 / 2)
             + cos (lat1 * PI / 180) * cos (lat2 * PI / 180)
               * sin ((lon2 - lon1) * PI / 180 / 2)
               * sin ((lon2 - lon1) * PI / 180 / 2))%R) in *.
  pose proof (Ratan2_first_quadrant _ _ (sqrt_pos a) (sqrt_pos (1 - a))) as Hq.
  split; [lra|].
  replace (6371 * (2 * Ratan2 (R_sqrt.sqrt a) (R_sqrt.sqrt (1 - a))) / 6371 / 2)%R
    with (Ratan2 (R_sqrt.sqrt a) (R_sqrt.sqrt (1 - a))) by (field; lra).
  rewrite (sin_Ratan2_sqrt a Ha). unfold Rsqr.
  rewrite sqrt_sqrt by lra. unfold a. ring.
Qed.

Lemma calculateDistance_inverts_haversine_witness :
  ((-90 <= 40 <= 90) /\ (-90 <= 41 <= 90))%R
  /\ let d := Dashboard.calculateDistance (N := real)
                40%R (-74)%R 41%R (-73)%R in
     (0 <= d <= 6371 * PI
      /\ (sin (d / 6371 / 2))² =
           (sin ((41 - 40) * PI / 180 / 2))²
           + cos (40 * PI / 180) * cos (41 * PI / 180)
             * (sin ((-73 - -74) * PI / 180 / 2))²)%R.
Proof.
  assert (H1 : (-90 <= 40 <= 90)%R) by lra.
  assert (H2 : (-90 <= 41 <= 90)%R) by lra.
  split; [split; assumption|].
  exact (calculateDistance_inverts_haversine 40%R (-74)%R 41%R (-73)%R H1 H2).
Defined.

(** ** Distance annotations of the list and of the map *)

(** X3. With a position known the list entry shows the very number the map
    popup computes.  With none, the list shows no distance and the popup
    hides it.  For a hazard at the user's own position the list shows a
    distance of 0 while the popup, which renders a distance only when it
    is above 0, hides it. *)
Theorem distance_annotations :
  forall (cur : option (Location R)) (h : Hazard R),
    HazardList.entry_distance cur h
      = match cur with
        | Some _ => Some (HazardMap.popup_distance cur h)
        | None => None
        end
    /\ HazardMap.popup_shows_distance None h = false
    /\ HazardList.entry_distance (Some (Api.location h)) h = Some 0%R
    /\ HazardMap.popup_shows_distance (Some (Api.location h)) h = false.
Proof.
  intros cur h. repeat split.
  - destruct cur; reflexivity.
  - cbn. unfold Rltb. destruct (Rlt_dec 0 0); [lra|reflexivity].
  - unfold HazardList.entry_distance. f_equal.
    apply (calculateDistance_same (lat (Api.location h)) (lon (Api.location h))).
  - unfold HazardMap.popup_shows_distance, HazardMap.popup_distance.
    change (HazardMap.calculateDistance ?a ?b ?c ?d)
      with (Dashboard.calculateDistance a b c d).
    rewrite calculateDistance_same. cbn. unfold Rltb.
    destruct (Rlt_dec 0 0); [lra|reflexivity].
Qed.

(** ** Badge variants and marker colours *)

Lemma lower_code_unit_idempotent (c : ascii) :
  lower_code_unit (lower_code_unit c) = lower_code_unit c.
Proof. destruct c as [[] [] [] [] [] [] [] []]; reflexivity. Qed.

Lemma toLowerCase_idempotent (s : string) :
  toLowerCase (toLowerCase s) = toLowerCase s.
Proof.
  induction s as [|c s IH]; cbn; [reflexivity|].
  now rewrite lower_code_unit_idempotent, IH.
Qed.

(** X4. Badge variant and marker colour do not depend on the letter case
    of the hazard type. *)
Theorem hazard_type_case_insensitive :
  forall type : string,
    HazardList.getHazardVariant (toLowerCase type)
      = HazardList.getHazardVariant type
    /\ HazardMap.getHazardIcon_color (toLowerCase type)
       = HazardMap.getHazardIcon_color type.
Proof.
  intros type. unfold HazardList.getHazardVariant, HazardMap.getHazardIcon_color.
  now rewrite toLowerCase_idempotent.
Qed.

(** A lower-cased string is none of the names with a capital letter. *)
Lemma toLowerCase_neq (s name : string) :
  toLowerCase name <> name -> String.eqb (toLowerCase s) name = false.
Proof.
  intros Hne. apply String.eqb_neq. intros E. apply Hne.
  rewrite <- E. apply toLowerCase_idempotent.
Qed.

(** X5. Every hazard type gets a badge variant and a marker colour: the
    table's entry for the five known types, and the fallback ["default"]
    and ["#f97316"] for every other type, except the two whose lower case
    is a lower-case member of [Object.prototype] (["constructor"] and
    ["__proto__"]), for which the lookup yields that inherited member.  The
    two tables know the same types. *)
Theorem hazard_type_lookup :
  forall type : string,
    let key := toLowerCase type in
    (if existsb (String.eqb key)
          ["accident"; "pothole"; "flood"; "roadblock"; "traffic jam"]%string
     then exists variant color,
            own_property HazardList.variants key = Some variant
            /\ own_property HazardMap.colors key = Some color
            /\ HazardList.getHazardVariant type = JString variant
            /\ HazardMap.getHazardIcon_color type = JString color
     else if existsb (String.eqb key) ["constructor"; "__proto__"]%string
     then HazardList.getHazardVariant type = JInherited key
          /\ HazardMap.getHazardIcon_color type = JInherited key
     else HazardList.getHazardVariant type = JString "default"
          /\ HazardMap.getHazardIcon_color type = JString "#f97316").
Proof.
  intros type key.
  assert (Hcap : forall name,
             toLowerCase name <> name -> String.eqb key name = false)
    by (intros; now apply toLowerCase_neq).
  unfold HazardList.getHazardVariant, HazardMap.getHazardIcon_color, get.
  fold key. clearbody key.
  destruct (String.eqb_spec key "accident") as [E|N1]; [subst key; cbn; eauto 10|].
  destruct (String.eqb_spec key "pothole") as [E|N2]; [subst key; cbn; eauto 10|].
  destruct (String.eqb_spec key "flood") as [E|N3]; [subst key; cbn; eauto 10|].
  destruct (String.eqb_spec key "roadblock") as [E|N4]; [subst key; cbn; eauto 10|].
  destruct (String.eqb_spec key "traffic jam") as [E|N5]; [subst key; cbn; eauto 10|].
  apply String.eqb_neq in N1, N2, N3, N4, N5.
  cbn -[String.eqb]. rewrite N1, N2, N3, N4, N5.
  rewrite (String.eqb_sym key) in N1, N2, N3, N4, N5.
  rewrite N1, N2, N3, N4, N5. cbn -[String.eqb].
  rewrite (Hcap "__defineGetter__"), (Hcap "__defineSetter__"),
    (Hcap "hasOwnProperty"), (Hcap "__lookupGetter__"),
    (Hcap "__lookupSetter__"), (Hcap "isPrototypeOf"),
    (Hcap "propertyIsEnumerable"), (Hcap "toString"), (Hcap "valueOf"),
    (Hcap "toLocaleString") by (vm_compute; discriminate).
  destruct (String.eqb_spec key "constructor") as [E|];
    [subst key; cbn; auto|].
  destruct (String.eqb_spec key "__proto__") as [E|]; [subst key|]; cbn; auto.
Qed.

(** ** The alert queue over a sequence of arrivals *)

Section Arrivals.
Context {num : Type} {N : Number num}.
Import Dashboard.

(** One arrival: queued with one refresh when nearby, no change when not. *)
Lemma on_hazard_alert_nearby (ev : Arrival num) (w : World num) :
  snd (on_hazard_alert (arrival_location ev) (arrival_time ev)
         (arrival_data ev) w)
    = if nearby ev
      then mkWorld (hazards w) (loading w) (alerts w ++ [record_of ev])
                   (S (getHazards_requests w)) (toasts w)
      else w.
Proof.
  unfold nearby, record_of.
  destruct (location (arrival_data ev)) as [l|] eqn:Hloc.
  - rewrite (on_hazard_alert_located _ _ _ l w Hloc).
    destruct (arrival_location ev) as [cl|]; [|reflexivity].
    now destruct (le _ _).
  - rewrite (on_hazard_alert_unlocated _ _ _ w Hloc).
    now destruct (arrival_location ev).
Qed.

Lemma handle_all_nearby (evs : list (Arrival num)) (w : World num) :
  handle_all evs w
    = mkWorld (hazards w) (loading w)
        (alerts w ++ List.map record_of (List.filter nearby evs))
        (getHazards_requests w + length (List.filter nearby evs))
        (toasts w).
Proof.
  revert w. induction evs as [|ev evs IH]; intros w.
  - cbn. rewrite app_nil_r, Nat.add_0_r. now destruct w.
  - change (handle_all (ev :: evs) w)
      with (handle_all evs
              (snd (on_hazard_alert (arrival_location ev) (arrival_time ev)
                      (arrival_data ev) w))).
    rewrite on_hazard_alert_nearby, IH. cbn [List.filter].
    destruct (nearby ev); cbn; [|reflexivity].
    rewrite <- app_assoc. cbn. f_equal. lia.
Qed.
End Arrivals.

(** X6. However many events arrive, and whatever they carry: the queue
    grows by exactly the nearby ones, in their order of arrival, after the
    records it held; one refresh is requested per record queued; the
    hazard list, the loading flag and the toasts are not touched. *)
Theorem arrivals_queued_in_order :
  forall (num : Type) (N : Number num)
         (evs : list (Dashboard.Arrival num)) (w : Dashboard.World num),
    let w' := Dashboard.handle_all evs w in
    Dashboard.alerts w'
      = Dashboard.alerts w
          ++ List.map Dashboard.record_of (List.filter Dashboard.nearby evs)
    /\ Dashboard.getHazards_requests w'
       = (Dashboard.getHazards_requests w
            + length (List.filter Dashboard.nearby evs))%nat
    /\ Dashboard.hazards w' = Dashboard.hazards w
    /\ Dashboard.loading w' = Dashboard.loading w
    /\ Dashboard.toasts w' = Dashboard.toasts w.
Proof.
  intros num N evs w w'. subst w'. rewrite handle_all_nearby. cbn. auto.
Qed.

(** X7. Starting from an empty queue, arrivals handled at pairwise distinct
    clock readings give the queued records pairwise distinct ids. *)
Theorem distinct_clock_readings_distinct_ids :
  forall (num : Type) (N : Number num)
         (evs : list (Dashboard.Arrival num)) (w : Dashboard.World num),
    Dashboard.alerts w = [] ->
    List.NoDup (List.map Dashboard.arrival_time evs) ->
    List.NoDup (Dashboard.queue_ids (Dashboard.handle_all evs w)).
Proof.
  intros num N evs w Hempty Hnd.
  rewrite handle_all_nearby. unfold Dashboard.queue_ids; cbn.
  rewrite Hempty; cbn. clear Hempty.
  induction evs as [|ev evs IH]; cbn in *; [constructor|].
  apply List.NoDup_cons_iff in Hnd as [Hni Hnd].
  destruct (Dashboard.nearby ev); cbn; [|now apply IH].
  constructor; [|now apply IH].
  intros Hin. apply Hni.
  apply List.in_map_iff in Hin as (r & Hr & Hinr).
  apply List.in_map_iff in Hinr as (e & <- & Hine).
  apply Date_now_toString_inj in Hr.
  apply List.in_map_iff. exists e. split; [exact Hr|].
  now apply List.filter_In in Hine.
Qed.

Lemma distinct_clock_readings_distinct_ids_witness :
  let evs := [Dashboard.mkArrival (Some Scenario.here) 1700000000000
                (Scenario.pothole (Some Scenario.here));
              Dashboard.mkArrival (Some Scenario.here) 1700000000001
                (Scenario.flood (Some Scenario.here))] in
  Dashboard.alerts Scenario.fresh_world = []
  /\ List.NoDup (List.map Dashboard.arrival_time evs)
  /\ List.NoDup (Dashboard.queue_ids
                   (Dashboard.handle_all evs Scenario.fresh_world)).
Proof.
  intros evs.
  assert (H1 : Dashboard.alerts Scenario.fresh_world = []) by reflexivity.
  assert (H2 : List.NoDup (List.map Dashboard.arrival_time evs)).
  { repeat constructor; cbn; intuition discriminate. }
  split; [exact H1|]. split; [exact H2|].
  exact (distinct_clock_readings_distinct_ids R real evs Scenario.fresh_world H1 H2).
Defined.

(** X8. Dismissals commute, and a dismissal keeps the records of every
    other id, in the order they had. *)
Theorem dismissals_commute :
  forall (num : Type) (N : Number num) (i j : string) (w : Dashboard.World num),
    snd (Dashboard.dismissAlert i (snd (Dashboard.dismissAlert j w)))
      = snd (Dashboard.dismissAlert j (snd (Dashboard.dismissAlert i w)))
    /\ sublist (Dashboard.alerts (snd (Dashboard.dismissAlert i w)))
               (Dashboard.alerts w)
    /\ (forall a, In a (Dashboard.alerts (snd (Dashboard.dismissAlert i w)))
                   <-> In a (Dashboard.alerts w) /\ Dashboard.id a <> i).
Proof.
  intros num N i j w. rewrite !dismissAlert_alerts; cbn. repeat split.
  - f_equal. generalize (Dashboard.alerts w) as l.
    induction l as [|a l IH]; cbn; [reflexivity|].
    destruct (String.eqb (Dashboard.id a) j) eqn:Ej,
             (String.eqb (Dashboard.id a) i) eqn:Ei;
      cbn; rewrite ?Ej, ?Ei; cbn; now rewrite IH.
  - generalize (Dashboard.alerts w) as l.
    induction l as [|a l IH]; cbn; [constructor|].
    destruct (negb _); now constructor.
  - rewrite List.filter_In, negb_true_iff, String.eqb_neq in H. tauto.
  - rewrite List.filter_In, negb_true_iff, String.eqb_neq in H. tauto.
  - intros [Hin Hne]. rewrite List.filter_In, negb_true_iff, String.eqb_neq.
    tauto.
Qed.

(** ** A card for any record on any dashboard *)

Ltac settle_times :=
  match goal with
  | |- context [Z.leb ?x ?y] =>
      first [ rewrite (proj2 (Z.leb_le x y)) by lia
            | rewrite (proj2 (Z.leb_gt x y)) by lia ]
  | |- context [Z.ltb ?x ?y] =>
      first [ rewrite (proj2 (Z.ltb_lt x y)) by lia
            | rewrite (proj2 (Z.ltb_ge x y)) by lia ]
  | |- context [Z.max ?x ?y] =>
      first [ rewrite (Z.max_r x y) by lia
            | rewrite (Z.max_l x y) by lia ]
  end.

Section AnyCard.
Context {num : Type} {N : Number num}.
Variable a : Dashboard.AlertRecord num.
Variable w : Dashboard.World num.
Import AlertNotification.

(** The queue of [w] without the records that carry the id of [a]. *)
Let remaining : list (Dashboard.AlertRecord num) :=
  List.filter (fun r => negb (String.eqb (Dashboard.id r) (Dashboard.id a)))
              (Dashboard.alerts w).

Lemma not_queued_after_dismissal :
  existsb (fun r => String.eqb (Dashboard.id r) (Dashboard.id a))
    (List.filter (fun r => negb (String.eqb (Dashboard.id r) (Dashboard.id a)))
       (Dashboard.alerts w)) = false.
Proof.
  induction (Dashboard.alerts w) as [|r l IH]; cbn; [reflexivity|].
  destruct (String.eqb (Dashboard.id r) (Dashboard.id a)) eqn:E; cbn;
    rewrite ?E; cbn; exact IH.
Qed.

Ltac simulate_card :=
  unfold life, click, mounted_at_0, mount_effect;
  repeat (cbn -[Z.leb Z.ltb Z.max Z.add String.eqb];
          try unfold onDismiss, reconcile, queued;
          cbn -[Z.leb Z.ltb Z.max Z.add String.eqb];
          rewrite ?not_queued_after_dismissal;
          try settle_times).

(** X9. A card that is never clicked, for any record on any dashboard: up
    to 10.299 s the queue is untouched; the 10 s timeout runs
    [handleDismiss], and at 10.3 s [onDismiss] removes every record with
    the card's id and the card is unmounted. *)
Lemma unclicked_any_card :
  option_map (fun s => (log s, Dashboard.alerts (world s))) (life a w None 10299)
    = Some ([(10000, AutoDismissFired)], Dashboard.alerts w)
  /\ option_map (fun s => (log s, Dashboard.alerts (world s))) (life a w None 20000)
     = Some ([(10000, AutoDismissFired); (10300, OnDismissCalled);
              (10300, Unmounted)], remaining).
Proof. split; simulate_card; reflexivity. Qed.

(** X10. A click during the first 9.7 s, for any record on any dashboard:
    [onDismiss] runs once, 300 ms after the click, and removes every record
    with the card's id; the card is unmounted, the 10 s timeout never runs
    and no timer is left pending. *)
Lemma early_click_any_card (t : Z) :
  0 <= t < 9700 ->
  option_map (fun s => (log s, Dashboard.alerts (world s), timers s))
             (life a w (Some t) 20000)
    = Some ([(t, Clicked); (t + 300, OnDismissCalled); (t + 300, Unmounted)],
            remaining, []).
Proof.
  intros Ht. destruct (Z.lt_ge_cases t 100); simulate_card; reflexivity.
Qed.
End AnyCard.

Lemma early_click_any_card_witness :
  let a := Dashboard.mkAlertRecord (Scenario.pothole (Some Scenario.here))
             "1700000000000" in
  let w := Dashboard.mkWorld [] false [a] 0 [] in
  0 <= 5000 < 9700
  /\ option_map
       (fun s => (AlertNotification.log s,
                  Dashboard.alerts (AlertNotification.world s),
                  AlertNotification.timers s))
       (AlertNotification.life a w (Some 5000) 20000)
     = Some ([(5000, AlertNotification.Clicked);
              (5000 + 300, AlertNotification.OnDismissCalled);
              (5000 + 300, AlertNotification.Unmounted)],
             List.filter
               (fun r => negb (String.eqb (Dashboard.id r) (Dashboard.id a)))
               (Dashboard.alerts w),
             []).
Proof.
  intros a w.
  assert (H : 0 <= 5000 < 9700) by lia.
  split; [exact H|].
  exact (early_click_any_card a w 5000 H).
Defined.

(** ** The voice recorder *)

Section Recorder.
Context {num : Type} {N : Number num}.
Variable isTypeSupported : string -> bool.
Variable createObjectURL : VoiceRecorder.Blob -> string.
Variable toString : num -> string.
Import VoiceRecorder.

Abbreviation mimeType := (VoiceRecorder.mimeType isTypeSupported).

(** The chosen format is one of three, and [new Blob] keeps its name. *)
Lemma mimeType_cases :
  mimeType = "audio/wav"%string
  \/ mimeType = "audio/webm;codecs=opus"%string
  \/ mimeType = "audio/webm"%string.
Proof.
  unfold VoiceRecorder.mimeType.
  destruct (isTypeSupported "audio/wav"); [now left|].
  destruct (isTypeSupported "audio/webm;codecs=opus"); auto.
Qed.

Lemma Blob_new_type (parts : list Blob) :
  type (Blob_new parts mimeType) = mimeType.
Proof.
  destruct mimeType_cases as [-> | [-> | ->]]; reflexivity.
Qed.

(** Dropping the empty chunks loses no byte. *)
Lemma concat_nonempty (chunks : list Blob) :
  List.concat (List.map bytes
     (List.filter (fun c => (0 <? length (bytes c))%nat) chunks))
    = List.concat (List.map bytes chunks).
Proof.
  induction chunks as [|c chunks IH]; [reflexivity|].
  cbn [List.filter List.map List.concat].
  destruct (bytes c) as [|b l] eqn:E.
  - cbn [length Nat.ltb Nat.leb]. exact IH.
  - change (0 <? length (b :: l))%nat with true.
    cbn [List.map List.concat]. now rewrite E, IH.
Qed.

Lemma deliver_chunks (chunks : list Blob) (s : State) :
  fold_left (fun st c => ondataavailable c st) chunks s
    = set_audioChunksRef
        (audioChunksRef s
           ++ List.filter (fun c => (0 <? length (bytes c))%nat) chunks) s.
Proof.
  revert s. induction chunks as [|c chunks IH]; intros s.
  - cbn. rewrite app_nil_r. now destruct s.
  - cbn [fold_left List.filter]. rewrite IH. unfold ondataavailable.
    destruct (0 <? length (bytes c))%nat; [|reflexivity].
    unfold set_audioChunksRef; cbn [audioChunksRef isRecording audioBlob
      audioUrl uploading mediaRecorderRef toasts reportVoice_requests
      onHazardReported_calls].
    now rewrite <- app_assoc.
Qed.

Lemma Blob_new_chunks (chunks : list Blob) :
  Blob_new (List.filter (fun c => (0 <? length (bytes c))%nat) chunks) mimeType
    = mkBlob (List.concat (List.map bytes chunks)) mimeType.
Proof.
  unfold Blob_new. rewrite concat_nonempty. f_equal.
  destruct mimeType_cases as [-> | [-> | ->]]; reflexivity.
Qed.
End Recorder.

(** X11. A recording starts exactly when the microphone is granted and the
    browser supports WAV, WebM with Opus, or plain WebM; otherwise nothing
    is recorded and one destructive toast is shown. *)
Theorem recording_starts_iff_supported :
  forall (isTypeSupported : string -> bool) (granted : bool)
         (s : VoiceRecorder.State),
    let s' := VoiceRecorder.startRecording isTypeSupported granted s in
    let supported :=
      isTypeSupported "audio/wav"
      || isTypeSupported "audio/webm;codecs=opus"
      || isTypeSupported "audio/webm" in
    if granted && supported then
      VoiceRecorder.isRecording s' = true
      /\ VoiceRecorder.audioChunksRef s' = []
      /\ VoiceRecorder.mediaRecorderRef s'
           = Some (VoiceRecorder.mimeType isTypeSupported)
    else
      s' = VoiceRecorder.toast
             (VoiceRecorder.mkToast "Recording Failed"
                "Could not access microphone. Please allow microphone access."
                true) s.
Proof.
  intros isTS granted s s' supported. subst s' supported.
  unfold VoiceRecorder.startRecording, VoiceRecorder.mimeType.
  destruct granted; cbn; [|reflexivity].
  destruct (isTS "audio/wav") eqn:E1; cbn; [now rewrite E1|].
  destruct (isTS "audio/webm;codecs=opus") eqn:E2; cbn; [now rewrite E2|].
  destruct (isTS "audio/webm") eqn:E3; cbn; auto.
Qed.

Lemma record_session_result
    (isTS : string -> bool) (mkURL : VoiceRecorder.Blob -> string)
    (chunks : list VoiceRecorder.Blob) (s : VoiceRecorder.State) :
  isTS (VoiceRecorder.mimeType isTS) = true ->
  let s' := VoiceRecorder.record_session isTS mkURL chunks s in
  let blob := VoiceRecorder.mkBlob
                (List.concat (List.map VoiceRecorder.bytes chunks))
                (VoiceRecorder.mimeType isTS) in
  VoiceRecorder.audioBlob s' = Some blob
  /\ VoiceRecorder.audioUrl s' = mkURL blob
  /\ VoiceRecorder.isRecording s' = false
  /\ VoiceRecorder.reportVoice_requests s' = VoiceRecorder.reportVoice_requests s.
Proof.
  intros Hsup s' blob. subst s' blob.
  unfold VoiceRecorder.record_session, VoiceRecorder.startRecording.
  rewrite Hsup. cbn -[Nat.ltb VoiceRecorder.Blob_new].
  rewrite deliver_chunks. cbn -[Nat.ltb VoiceRecorder.Blob_new].
  unfold VoiceRecorder.onstop. cbn -[Nat.ltb VoiceRecorder.Blob_new].
  rewrite Blob_new_chunks. auto.
Qed.

(** X12. In a browser that supports the chosen format, a recording session
    ends with a blob that holds every byte the recorder delivered, in
    order (the empty chunks it skips carry none), typed with the chosen
    format, and with the URL made for that blob; the component is no longer
    recording. *)
Theorem recording_keeps_every_byte :
  forall (isTypeSupported : string -> bool)
         (createObjectURL : VoiceRecorder.Blob -> string)
         (chunks : list VoiceRecorder.Blob) (s : VoiceRecorder.State),
    isTypeSupported (VoiceRecorder.mimeType isTypeSupported) = true ->
    let s' := VoiceRecorder.record_session isTypeSupported createObjectURL
                chunks s in
    let blob := VoiceRecorder.mkBlob
                  (List.concat (List.map VoiceRecorder.bytes chunks))
                  (VoiceRecorder.mimeType isTypeSupported) in
    VoiceRecorder.audioBlob s' = Some blob
    /\ VoiceRecorder.audioUrl s' = createObjectURL blob
    /\ VoiceRecorder.isRecording s' = false.
Proof.
  intros isTS mkURL chunks s Hsup s' blob.
  destruct (record_session_result isTS mkURL chunks s Hsup) as (H1 & H2 & H3 & _).
  auto.
Qed.

Lemma recording_keeps_every_byte_witness :
  let isTS := fun _ : string => true in
  let mkURL := fun _ : VoiceRecorder.Blob => "blob:recording"%string in
  let chunks := [VoiceRecorder.mkBlob [Byte.x52; Byte.x49] "audio/wav";
                 VoiceRecorder.mkBlob [] "audio/wav";
                 VoiceRecorder.mkBlob [Byte.x46] "audio/wav"] in
  isTS (VoiceRecorder.mimeType isTS) = true
  /\ let s' := VoiceRecorder.record_session isTS mkURL chunks
                 VoiceRecorder.initial in
     let blob := VoiceRecorder.mkBlob
                   (List.concat (List.map VoiceRecorder.bytes chunks))
                   (VoiceRecorder.mimeType isTS) in
     VoiceRecorder.audioBlob s' = Some blob
     /\ VoiceRecorder.audioUrl s' = mkURL blob
     /\ VoiceRecorder.isRecording s' = false.
Proof.
  intros isTS mkURL chunks.
  assert (H : isTS (VoiceRecorder.mimeType isTS) = true) by reflexivity.
  split; [exact H|].
  exact (recording_keeps_every_byte isTS mkURL chunks VoiceRecorder.initial H).
Defined.

(** X13. Uploading what a session recorded sends one request whose file is
    the recorded blob, named [hazard_report.wav] when the browser records
    WAV and [hazard_report.webm] otherwise, followed by the latitude and the
    longitude as text. *)
Theorem recorded_upload_file_name :
  forall (num : Type) (N : Number num)
         (isTypeSupported : string -> bool)
         (createObjectURL : VoiceRecorder.Blob -> string)
         (toString : num -> string)
         (chunks : list VoiceRecorder.Blob) (cl : Location num)
         (s : VoiceRecorder.State),
    isTypeSupported (VoiceRecorder.mimeType isTypeSupported) = true ->
    let recorded := VoiceRecorder.record_session isTypeSupported
                      createObjectURL chunks s in
    VoiceRecorder.reportVoice_requests
      (VoiceRecorder.uploadAudio toString (Some cl) recorded)
    = VoiceRecorder.reportVoice_requests s
      ++ [[VoiceRecorder.file_entry "file"
             (VoiceRecorder.mkBlob
                (List.concat (List.map VoiceRecorder.bytes chunks))
                (VoiceRecorder.mimeType isTypeSupported))
             (if isTypeSupported "audio/wav"
              then "hazard_report.wav" else "hazard_report.webm");
           VoiceRecorder.text_entry "lat" (toString (lat cl));
           VoiceRecorder.text_entry "lon" (toString (lon cl))]].
Proof.
  intros num N isTS mkURL toStr chunks cl s Hsup recorded.
  pose proof (record_session_result isTS mkURL chunks s Hsup)
    as (Hblob & _ & _ & Hreq).
  fold recorded in Hblob, Hreq.
  clearbody recorded.
  unfold VoiceRecorder.uploadAudio. rewrite Hblob.
  cbn -[VoiceRecorder.extension append]. rewrite Hreq. do 3 f_equal.
  unfold VoiceRecorder.extension, VoiceRecorder.mimeType; cbn [VoiceRecorder.type].
  destruct (isTS "audio/wav"); [reflexivity|].
  destruct (isTS "audio/webm;codecs=opus"); reflexivity.
Qed.

Lemma recorded_upload_file_name_witness :
  let isTS := fun _ : string => true in
  let mkURL := fun _ : VoiceRecorder.Blob => "blob:recording"%string in
  let toStr := fun _ : R => "40"%string in
  let chunks := [VoiceRecorder.mkBlob [Byte.x52; Byte.x49] "audio/wav"] in
  isTS (VoiceRecorder.mimeType isTS) = true
  /\ VoiceRecorder.reportVoice_requests
       (VoiceRecorder.uploadAudio toStr (Some Scenario.here)
          (VoiceRecorder.record_session isTS mkURL chunks VoiceRecorder.initial))
     = VoiceRecorder.reportVoice_requests VoiceRecorder.initial
       ++ [[VoiceRecorder.file_entry "file"
              (VoiceRecorder.mkBlob
                 (List.concat (List.map VoiceRecorder.bytes chunks))
                 (VoiceRecorder.mimeType isTS))
              (if isTS "audio/wav"
               then "hazard_report.wav" else "hazard_report.webm");
            VoiceRecorder.text_entry "lat" (toStr (lat Scenario.here));
            VoiceRecorder.text_entry "lon" (toStr (lon Scenario.here))]].
Proof.
  intros isTS mkURL toStr chunks.
  assert (H : isTS (VoiceRecorder.mimeType isTS) = true) by reflexivity.
  split; [exact H|].
  exact (recorded_upload_file_name R real isTS mkURL toStr chunks
           Scenario.here VoiceRecorder.initial H).
Defined.

(** X14. [uploadAudio] sends a request only when there is both a recording
    and a position; without either it shows one destructive toast and
    changes nothing else.  When the request settles the uploading flag is
    off again; a success clears the recording and calls [onHazardReported]
    once; a failure keeps the recording, so it can be uploaded again, and
    calls nothing. *)
Theorem upload_outcome :
  forall (num : Type) (N : Number num) (toString : num -> string)
         (cur : option (Location num))
         (outcome : VoiceRecorder.Classified (num := num) + option string)
         (s : VoiceRecorder.State),
    let s1 := VoiceRecorder.uploadAudio toString cur s in
    let s2 := VoiceRecorder.uploadAudio_settled toString outcome s1 in
    match VoiceRecorder.audioBlob s, cur with
    | Some blob, Some _ =>
        VoiceRecorder.uploading s1 = true
        /\ length (VoiceRecorder.reportVoice_requests s1)
           = S (length (VoiceRecorder.reportVoice_requests s))
        /\ VoiceRecorder.uploading s2 = false
        /\ VoiceRecorder.reportVoice_requests s2
           = VoiceRecorder.reportVoice_requests s1
        /\ match outcome with
           | inl _ =>
               VoiceRecorder.audioBlob s2 = None
               /\ VoiceRecorder.audioUrl s2 = EmptyString
               /\ VoiceRecorder.audioChunksRef s2 = []
               /\ VoiceRecorder.onHazardReported_calls s2
                  = S (VoiceRecorder.onHazardReported_calls s)
           | inr _ =>
               VoiceRecorder.audioBlob s2 = Some blob
               /\ VoiceRecorder.audioUrl s2 = VoiceRecorder.audioUrl s
               /\ VoiceRecorder.audioChunksRef s2 = VoiceRecorder.audioChunksRef s
               /\ VoiceRecorder.onHazardReported_calls s2
                  = VoiceRecorder.onHazardReported_calls s
           end
    | _, _ =>
        s1 = VoiceRecorder.toast
               (VoiceRecorder.mkToast "Upload Failed"
                  "Missing audio or location data" true) s
        /\ VoiceRecorder.reportVoice_requests s1
           = VoiceRecorder.reportVoice_requests s
        /\ VoiceRecorder.uploading s1 = VoiceRecorder.uploading s
    end.
Proof.
  intros num N toStr cur outcome s s1 s2. subst s1 s2.
  unfold VoiceRecorder.uploadAudio.
  destruct (VoiceRecorder.audioBlob s) as [blob|] eqn:Hb, cur as [cl|];
    try (repeat split; reflexivity).
  cbn. rewrite length_app; cbn.
  split; [reflexivity|]. split; [lia|].
  destruct outcome as [data|err]; cbn; auto 10.
Qed.

(** ** The controls of the voice recorder *)

Section Controls.
Context {num : Type} {N : Number num}.
Variable isTypeSupported : string -> bool.
Variable createObjectURL : VoiceRecorder.Blob -> string.
Variable toString : num -> string.
Hypothesis createObjectURL_nonempty :
  forall blob, createObjectURL blob <> EmptyString.
Import VoiceRecorder.

Lemma act_consistent (s : State) (a : Action (num := num)) :
  consistent s ->
  consistent (act isTypeSupported createObjectURL toString s a).
Proof.
  unfold consistent. intros Hs.
  destruct a as [granted|d|m| | |cl|o]; cbn.
  - unfold startRecording. destruct (_ && _); cbn; assumption.
  - unfold ondataavailable. destruct (_ <? _)%nat; cbn; assumption.
  - split; [discriminate|]. intros E. now apply createObjectURL_nonempty in E.
  - unfold stopRecording. destruct (mediaRecorderRef s); [|assumption].
    destruct (isRecording s); cbn; assumption.
  - tauto.
  - unfold uploadAudio. destruct (audioBlob s) eqn:Hb, cl; cbn;
      rewrite ?Hb; assumption.
  - destruct o; cbn; tauto.
Qed.

Lemma acts_consistent (l : list (Action (num := num))) :
  consistent (acts isTypeSupported createObjectURL toString l).
Proof.
  unfold acts.
  assert (H0 : consistent initial) by (unfold consistent; cbn; tauto).
  revert H0. generalize initial.
  induction l as [|a l IH]; intros s Hs; cbn; [assumption|].
  apply IH. now apply act_consistent.
Qed.
End Controls.

(** X15. Whatever the user and the recorder do, in any order, provided the
    browser never hands out an empty object URL: a recording is held
    exactly when its URL is, and the component shows exactly one of its
    three controls: Start, Stop, or the preview with Upload and Clear. *)
Theorem recorder_shows_one_control :
  forall (num : Type) (N : Number num)
         (isTypeSupported : string -> bool)
         (createObjectURL : VoiceRecorder.Blob -> string)
         (toString : num -> string)
         (l : list (VoiceRecorder.Action (num := num))),
    (forall blob, createObjectURL blob <> EmptyString) ->
    let s := VoiceRecorder.acts isTypeSupported createObjectURL toString l in
    (VoiceRecorder.audioBlob s = None
     <-> VoiceRecorder.audioUrl s = EmptyString)
    /\ length (List.filter (fun shown : bool => shown)
                 [VoiceRecorder.start_button s; VoiceRecorder.stop_button s;
                  VoiceRecorder.preview s]) = 1%nat.
Proof.
  intros num N isTS mkURL toStr l Hurl s.
  pose proof (acts_consistent isTS mkURL toStr Hurl l) as Hc. fold s in Hc.
  split; [exact Hc|].
  unfold VoiceRecorder.start_button, VoiceRecorder.stop_button,
    VoiceRecorder.preview.
  destruct Hc as [H1 H2].
  destruct (VoiceRecorder.isRecording s); cbn.
  - now rewrite !andb_false_r.
  - destruct (VoiceRecorder.audioBlob s) as [b|] eqn:Hb.
    + destruct (String.eqb_spec (VoiceRecorder.audioUrl s) EmptyString) as [E|_].
      * specialize (H2 E). discriminate.
      * reflexivity.
    + rewrite (H1 eq_refl). reflexivity.
Qed.

Lemma recorder_shows_one_control_witness :
  let isTS := fun _ : string => true in
  let mkURL := fun _ : VoiceRecorder.Blob => "blob:recording"%string in
  let toStr := fun _ : R => "40"%string in
  let l := [VoiceRecorder.StartRecording true;
            VoiceRecorder.DataAvailable
              (VoiceRecorder.mkBlob [Byte.x52] "audio/wav");
            VoiceRecorder.StopRecording;
            VoiceRecorder.RecorderStopped "audio/wav"] in
  (forall blob, mkURL blob <> EmptyString)
  /\ let s := VoiceRecorder.acts isTS mkURL toStr l in
     (VoiceRecorder.audioBlob s = None
      <-> VoiceRecorder.audioUrl s = EmptyString)
     /\ length (List.filter (fun shown : bool => shown)
                  [VoiceRecorder.start_button s; VoiceRecorder.stop_button s;
                   VoiceRecorder.preview s]) = 1%nat.
Proof.
  intros isTS mkURL toStr l.
  assert (H : forall blob, mkURL blob <> EmptyString)
    by (intros blob; discriminate).
  split; [exact H|].
  exact (recorder_shows_one_control R real isTS mkURL toStr l H).
Defined.

(** ** The location tracker *)

Section Tracker.
Context {num : Type}.
Import LocationContext.

Lemma arrivals_snoc (l : list (Arrival num)) (a : Arrival num) (s : State num) :
  arrivals (l ++ [a]) s = arrive (arrivals l s) a.
Proof. unfold arrivals. now rewrite fold_left_app. Qed.

Lemma tick_effect (g : bool) (s : State num) :
  interval_running (tick g s) = interval_running s
  /\ getCurrentPosition_calls (tick g s)
     = (getCurrentPosition_calls s
          + (if interval_running s && g then 1 else 0))%nat.
Proof.
  unfold tick. destruct (interval_running s) eqn:Hr, g; cbn; rewrite ?Hr;
    split; auto; lia.
Qed.

Lemma ticks_effect (g : bool) (n : nat) (s : State num) :
  interval_running (Nat.iter n (tick g) s) = interval_running s
  /\ getCurrentPosition_calls (Nat.iter n (tick g) s)
     = (getCurrentPosition_calls s
          + (if interval_running s && g then n else 0))%nat.
Proof.
  induction n as [|n [IHr IHc]]; simpl Nat.iter.
  - split; [reflexivity|]. destruct (_ && _); lia.
  - destruct (tick_effect g (Nat.iter n (tick g) s)) as [Hr Hc].
    rewrite Hr, Hc, IHr, IHc. split; [reflexivity|].
    destruct (interval_running s), g; cbn; lia.
Qed.
End Tracker.

(** X16. After any sequence of position results: the current position is
    the last fix received (or what it was, if there was none); every fix
    was pushed to the backend, once, in the order received; the location
    error is set exactly when a first request failed, and a later fix does
    not clear it; no result starts a request or touches the interval. *)
Theorem location_tracker_summary :
  forall (num : Type) (l : list (LocationContext.Arrival num))
         (s : LocationContext.State num),
    let s' := LocationContext.arrivals l s in
    LocationContext.currentLocation s'
      = match last (omap LocationContext.fix_of l) with
        | Some c => Some c
        | None => LocationContext.currentLocation s
        end
    /\ LocationContext.updateLocation_requests s'
       = LocationContext.updateLocation_requests s
           ++ omap LocationContext.fix_of l
    /\ LocationContext.locationError s'
       = (if existsb LocationContext.initial_failed l
          then Some "Could not get your location. Please enable location services."%string
          else LocationContext.locationError s)
    /\ LocationContext.getCurrentPosition_calls s'
       = LocationContext.getCurrentPosition_calls s
    /\ LocationContext.interval_running s'
       = LocationContext.interval_running s.
Proof.
  intros num l s. cbv zeta.
  induction l as [|a l IH] using rev_ind.
  - cbn. rewrite app_nil_r. repeat split.
  - destruct IH as (IH1 & IH2 & IH3 & IH4 & IH5).
    rewrite arrivals_snoc, omap_app, existsb_app.
    destruct a as [[c|]|[c|]]; cbn;
      rewrite ?last_snoc, ?app_nil_r, ?orb_false_r, ?orb_true_r, ?app_assoc;
      repeat split; try assumption; try congruence.
Qed.

(** X17. Position requests follow the session: unauthenticated, the effect
    does nothing; authenticated, it makes one request at once and one per
    turn of the interval, provided the device has geolocation; after the
    cleanup the interval makes no further request. *)
Theorem sampling_follows_session :
  forall (num : Type) (geolocation : bool) (n m : nat)
         (s : LocationContext.State num),
    let running :=
      Nat.iter n (LocationContext.tick geolocation)
        (LocationContext.effect true geolocation s) in
    LocationContext.effect false geolocation s = s
    /\ LocationContext.getCurrentPosition_calls running
       = (LocationContext.getCurrentPosition_calls s
            + (if geolocation then S n else 0))%nat
    /\ LocationContext.getCurrentPosition_calls
         (Nat.iter m (LocationContext.tick geolocation)
            (LocationContext.effect_cleanup running))
       = LocationContext.getCurrentPosition_calls running.
Proof.
  intros num g n m s running. split; [reflexivity|].
  destruct (ticks_effect g n (LocationContext.effect true g s)) as [_ Hc].
  fold running in Hc.
  destruct (ticks_effect g m (LocationContext.effect_cleanup running))
    as [_ Hc'].
  clearbody running. cbn in Hc'. rewrite Nat.add_0_r in Hc'.
  split; [|exact Hc'].
  rewrite Hc. destruct g; cbn; lia.
Qed.

(** ** The session and the page reload *)

Section Session.
Import AuthContext.

Lemma truthy_name_or_empty (n : string) :
  (if truthy (Some n) then default EmptyString (Some n) else EmptyString) = n.
Proof. cbn. now destruct (String.eqb_spec n EmptyString). Qed.
End Session.

(** X18. A session survives a reload when its token and user id are not
    empty, and only then.  After a signup the restored user is the user the
    signup set.  After a login the restored user has the login's id and
    token, with the name found in [localStorage] (the login stores none):
    after a logout that is the empty name the login set. *)
Theorem session_survives_reload :
  forall (sd : AuthContext.SignupData) (ld : AuthContext.LoginData)
         (tok : string) (s : AuthContext.State),
    AuthContext.user (AuthContext.reload (AuthContext.signup_resolved sd tok s))
      = (if truthy (Some tok) && truthy (Some (AuthContext.s_user_id sd))
         then AuthContext.user (AuthContext.signup_resolved sd tok s)
         else None)
    /\ AuthContext.user (AuthContext.reload (AuthContext.login_resolved ld tok s))
       = (if truthy (Some tok) && truthy (Some (AuthContext.l_user_id ld))
          then Some (AuthContext.mkUser (AuthContext.l_user_id ld)
                       (if truthy (AuthContext.localStorage s !! "name")
                        then default EmptyString
                               (AuthContext.localStorage s !! "name")
                        else EmptyString)
                       tok)
          else None)
    /\ AuthContext.user
         (AuthContext.reload
            (AuthContext.login_resolved ld tok (AuthContext.logout s)))
       = (if truthy (Some tok) && truthy (Some (AuthContext.l_user_id ld))
          then AuthContext.user
                 (AuthContext.login_resolved ld tok (AuthContext.logout s))
          else None).
Proof.
  intros sd ld tok s.
  unfold AuthContext.reload, AuthContext.restore,
    AuthContext.signup_resolved, AuthContext.login_resolved,
    AuthContext.logout.
  cbn [AuthContext.localStorage AuthContext.user AuthContext.toasts].
  repeat split.
  - rewrite (lookup_insert_ne _ "name" "token") by discriminate.
    rewrite (lookup_insert_ne _ "user_id" "token") by discriminate.
    rewrite (lookup_insert_ne _ "name" "user_id") by discriminate.
    rewrite !lookup_insert_eq.
    destruct (truthy (Some tok) && truthy (Some (AuthContext.s_user_id sd)));
      [|reflexivity].
    cbn [AuthContext.user default from_option].
    now rewrite truthy_name_or_empty.
  - rewrite (lookup_insert_ne _ "user_id" "token") by discriminate.
    rewrite (lookup_insert_ne _ "user_id" "name") by discriminate.
    rewrite (lookup_insert_ne _ "token" "name") by discriminate.
    rewrite !lookup_insert_eq.
    now destruct (truthy (Some tok) && truthy (Some (AuthContext.l_user_id ld))).
  - rewrite (lookup_insert_ne _ "user_id" "token") by discriminate.
    rewrite (lookup_insert_ne _ "user_id" "name") by discriminate.
    rewrite (lookup_insert_ne _ "token" "name") by discriminate.
    rewrite !lookup_insert_eq, lookup_delete_eq.
    now destruct (truthy (Some tok) && truthy (Some (AuthContext.l_user_id ld))).
Qed.

(** X19. After a logout nobody is signed in, a reload restores nobody, the
    request interceptor adds no [Authorization] header, and every other key
    of [localStorage] is as it was. *)
Theorem logout_ends_session :
  forall (s : AuthContext.State) (headers : gmap string string) (k : string),
    AuthContext.isAuthenticated (AuthContext.logout s) = false
    /\ AuthContext.user (AuthContext.reload (AuthContext.logout s)) = None
    /\ AuthContext.attach_token
         (AuthContext.localStorage (AuthContext.logout s)) headers = headers
    /\ (if existsb (String.eqb k) ["token"; "user_id"; "name"]%string
        then AuthContext.localStorage (AuthContext.logout s) !! k = None
        else AuthContext.localStorage (AuthContext.logout s) !! k
             = AuthContext.localStorage s !! k).
Proof.
  intros s headers k.
  assert (Htok : AuthContext.localStorage (AuthContext.logout s) !! "token"
                 = None).
  { cbn. rewrite !(lookup_delete_ne _ _ "token") by discriminate.
    apply lookup_delete_eq. }
  repeat split.
  - unfold AuthContext.reload, AuthContext.restore.
    cbn [AuthContext.localStorage]. now rewrite Htok.
  - unfold AuthContext.attach_token. now rewrite Htok.
  - cbn -[String.eqb].
    destruct (String.eqb_spec k "token") as [E|N1]; cbn -[String.eqb].
    { subst k. rewrite !(lookup_delete_ne _ _ "token") by discriminate.
      apply lookup_delete_eq. }
    destruct (String.eqb_spec k "user_id") as [E|N2]; cbn -[String.eqb].
    { subst k. rewrite (lookup_delete_ne _ "name" "user_id") by discriminate.
      apply lookup_delete_eq. }
    destruct (String.eqb_spec k "name") as [E|N3]; cbn -[String.eqb].
    { subst k. apply lookup_delete_eq. }
    rewrite !lookup_delete_ne by congruence. reflexivity.
Qed.

(** X20. After a login or a signup the request interceptor sends the token
    just issued as [Bearer] token, whatever token was stored before, and
    leaves every other header alone; with an empty token it adds nothing. *)
Theorem requests_carry_new_token :
  forall (sd : AuthContext.SignupData) (ld : AuthContext.LoginData)
         (tok : string) (s : AuthContext.State)
         (headers : gmap string string),
    let sent := if truthy (Some tok)
                then <["Authorization" := ("Bearer " ++ tok)%string]> headers
                else headers in
    AuthContext.attach_token
      (AuthContext.localStorage (AuthContext.login_resolved ld tok s)) headers
      = sent
    /\ AuthContext.attach_token
         (AuthContext.localStorage (AuthContext.signup_resolved sd tok s)) headers
       = sent.
Proof.
  intros sd ld tok s headers sent. subst sent.
  unfold AuthContext.attach_token, AuthContext.login_resolved,
    AuthContext.signup_resolved.
  cbn [AuthContext.localStorage].
  rewrite (lookup_insert_ne _ "name" "token") by discriminate.
  rewrite !(lookup_insert_ne _ "user_id" "token") by discriminate.
  rewrite !lookup_insert_eq. cbn [default from_option]. auto.
Qed.

(* ===================================================================== *)
(** * The program's numbers: binary64                                     *)
(* ===================================================================== *)

(** Evaluate the closed arguments of the engine's functions. *)
Ltac eval_float_args f :=
  repeat match goal with
         | |- context [f ?x] =>
             lazymatch x with
             | context [f] => fail
             | _ =>
                 let v := eval vm_compute in x in
                 progress change (f x) with (f v)
             end
         end.

(** C2, at the antipodal positions (-58, -179) and (58, 1), on an engine
    whose sine of 58 degrees is 0.8480480961564261 (as in V8; within one
    ulp of the exact value): the haversine term rounds to
    1.0000000000000002, [Math.sqrt(1 - a)] is NaN, and [calculateDistance]
    returns NaN, not the 6371 * PI km between the two positions. *)
Theorem calculateDistance_antipode_nan :
  forall (sin cos : float -> float) (atan2 : float -> float -> float),
    sin 0x1.03258031ade7cp+0%float = 0x1.b2335c2cda946p-1%float ->
    sin 0x1.921fb54442d18p+0%float = 1%float ->
    cos 0x1.03258031ade7cp+0%float = 0x1.0f5193eacdd2ap-1%float ->
    cos (- 0x1.03258031ade7cp+0)%float = 0x1.0f5193eacdd2ap-1%float ->
    (forall y : float, atan2 y nan = nan) ->
    Dashboard.calculateDistance (N := binary64 sin cos atan2)
      (-58)%float (-179)%float 58%float 1%float = nan.
Proof.
  intros sin cos atan2 Hs58 Hs90 Hc58 Hc58' Hnan.
  let v := eval vm_compute in (- 0x1.03258031ade7cp+0)%float in
  change (- 0x1.03258031ade7cp+0)%float with v in Hc58'.
  unfold Dashboard.calculateDistance.
  cbn [binary64 lit Math_PI add sub mul div Math_sin Math_cos Math_sqrt
       Math_atan2].
  eval_float_args sin. eval_float_args cos.
  rewrite Hs58, Hs90, Hc58, Hc58'.
  match goal with
  | |- context [atan2 ?y ?x] =>
      let vx := eval vm_compute in x in
      change (atan2 y x) with (atan2 y vx)
  end.
  rewrite Hnan. vm_compute. reflexivity.
Qed.

Lemma calculateDistance_antipode_nan_witness :
  Engine.Math_sin 0x1.03258031ade7cp+0%float = 0x1.b2335c2cda946p-1%float
  /\ Engine.Math_sin 0x1.921fb54442d18p+0%float = 1%float
  /\ Engine.Math_cos 0x1.03258031ade7cp+0%float = 0x1.0f5193eacdd2ap-1%float
  /\ Engine.Math_cos (- 0x1.03258031ade7cp+0)%float
     = 0x1.0f5193eacdd2ap-1%float
  /\ (forall y : float, Engine.Math_atan2 y nan = nan)
  /\ Dashboard.calculateDistance (N := Engine.js)
       (-58)%float (-179)%float 58%float 1%float = nan.
Proof.
  assert (H1 : Engine.Math_sin 0x1.03258031ade7cp+0%float
               = 0x1.b2335c2cda946p-1%float) by reflexivity.
  assert (H2 : Engine.Math_sin 0x1.921fb54442d18p+0%float = 1%float)
    by reflexivity.
  assert (H3 : Engine.Math_cos 0x1.03258031ade7cp+0%float
               = 0x1.0f5193eacdd2ap-1%float) by reflexivity.
  assert (H4 : Engine.Math_cos (- 0x1.03258031ade7cp+0)%float
               = 0x1.0f5193eacdd2ap-1%float) by reflexivity.
  assert (H5 : forall y : float, Engine.Math_atan2 y nan = nan).
  { intros y. unfold Engine.Math_atan2.
    now rewrite orb_true_r. }
  repeat (split; [assumption|]).
  exact (calculateDistance_antipode_nan Engine.Math_sin Engine.Math_cos
           Engine.Math_atan2 H1 H2 H3 H4 H5).
Defined.

(** ** The sorted listing in the program's numbers *)

Section SortOn.
Context {num : Type} {N : Number num} {A : Type}.
Variable comparefn : A -> A -> num.
Variable before : A -> A -> Prop.




End SortOn.

(** The agreement of the sign test with the order of the keys, asked of a
    hazard and itself, says that its key is comparable with itself: in
    binary64, that the key is not NaN. *)
Lemma comparable_self {num : Type} {N : Number num}
    (Date_getTime : string -> num) (cur : option (Location num))
    (a : Hazard num) :
  HazardList.comparable Date_getTime cur a a ->
  (HazardList.sort_key Date_getTime cur a
     <=? HazardList.sort_key Date_getTime cur a)%js = true.
Proof.
  unfold HazardList.comparable, HazardList.in_order.
  destruct cur; case_match; intros Hord; exact Hord.
Qed.



